(** * UTMA / SLIF: the adaptive grid-search orchestrator

    A shallow embedding of the sweep of [topic_analysis2.py] (the
    [__main__] block from the combination grid on) and of
    [SLIF/utils.py]'s [exponential_backoff].

    Conventions.
    - Python [int] is [Z]; [len] of a list is [length] ([nat]).
    - Python [float] values that the code only multiplies, divides and
      compares are exact rationals ([Qc], canonical, so that equality of
      dictionary keys is Leibniz equality).  Rounding error of the IEEE
      doubles is outside this model.
    - The Dask client, the training routine and the visualisation
      routine are collaborators of the script: they are the fields of an
      [Env] record, and every theorem quantifies over them.
    - Mutable locals of the sweep are the fields of [state]; a statement
      that can raise returns a [res]: either [Done] with a value and the
      state, or [Raise] with the exception and the state reached. *)

From Stdlib Require Import QArith Qcanon Qround Ascii.
From stdpp Require Import gmap strings list.

Open Scope Z_scope.

(** ** Data model *)

(** A prior value of the grid: the strings ['symmetric'] and
    ['asymmetric'], or a number. *)
Inductive prior :=
  | Symbolic (s : string)
  | Numeric (q : Qc).

Inductive phase := train | validation | test.

#[global] Instance prior_eq_dec : EqDecision prior.
Proof. solve_decision. Defined.

#[global] Instance phase_eq_dec : EqDecision phase.
Proof. solve_decision. Defined.

#[global] Instance prior_countable : Countable prior.
Proof.
  refine (inj_countable'
    (λ p, match p with Symbolic s => inl s | Numeric q => inr q end)
    (λ x, match x with inl s => Symbolic s | inr q => Numeric q end) _).
  by intros [].
Defined.

#[global] Instance phase_countable : Countable phase.
Proof.
  refine (inj_countable'
    (λ p, match p with train => 0%nat | validation => 1%nat | test => 2%nat end)
    (λ n, match n with O => train | S O => validation | _ => test end) _).
  by intros [].
Defined.

(** One element of [combinations]: [(n_topics, alpha, beta, phase)]. *)
Abbreviation Combination := (Z * prior * prior * phase)%type.

(** The key of [train_models_dict]: [(n_topics, alpha_value, beta_value)]. *)
Abbreviation ModelKey := (Z * prior * prior)%type.


(** Opaque handles of the execution substrate. *)
Definition DataHandle := nat.
Definition Model := nat.

Inductive exn :=
  | TypeError
  | IndexError
  | ValueError
  | ZeroDivisionError
  | KeyError (what : string)
  | Exception (what : string).

(** ** [SLIF/utils.py] *)

Module Utils.

(** Python's [2 ** attempt] for an [int] attempt: an [int] power for a
    non-negative exponent, the reciprocal (a float that is a power of
    two) for a negative one. *)
Definition pow2 (attempt : Z) : Qc :=
  if 0 <=? attempt
  then Qcpower 2 (Z.to_nat attempt)
  else Qcinv (Qcpower 2 (Z.to_nat (- attempt))).

(** [def exponential_backoff(attempt, BASE_WAIT_TIME=None):
       return BASE_WAIT_TIME * (2 ** attempt)]
    The keyword argument is [None] when the caller leaves it out;
    [None * number] raises [TypeError]. *)
Definition exponential_backoff (attempt : Z) (BASE_WAIT_TIME : option Qc)
  : exn + Qc :=
  let p := pow2 attempt in
  match BASE_WAIT_TIME with
  | None => inl TypeError
  | Some b => inr (b * p)%Qc
  end.

End Utils.

(** ** The script's state and collaborators *)

(** A remote call [client.submit(train_model_v2, n_topics, alpha_value,
    beta_value, data, phase, ..., num_workers, PER_WORD_TOPICS,
    ldamodel=...)]; the future it returns is identified with the call. *)
Record Task := mkTask {
  t_n_topics : Z;
  t_alpha : prior;
  t_beta : prior;
  t_data : DataHandle;
  t_phase : phase;
  t_num_workers : nat;
  t_ldamodel : option Model
}.

(** [train_result['alpha_str']] is a list or a plain value. *)
Inductive str_field :=
  | Plain (p : prior)
  | Listed (l : list prior).

(** What a resolved task returns, as far as the sweep reads it. *)
Record TaskResult := mkResult {
  topics : Z;
  alpha_str : str_field;
  beta_str : str_field;
  lda_model : Model
}.

(** One worker's entry of [scheduler_info['workers']]:
    [worker['metrics']['cpu']] and [worker['metrics']['memory']]. *)
Record Worker := mkWorker { cpu : Qc; memory : Z }.

(** [scattered_data.result()] of a test batch, as the dictionary the
    test phase reads; a key may be missing. *)
Record TestBatch := mkTestBatch {
  tb_n_topics : option Z;
  tb_alpha_value : option prior;
  tb_beta_value : option prior
}.

(** The collaborators of the sweep. *)
Record Env := mkEnv {
  (** [client.scheduler_info()['workers'].values()] at the n-th call *)
  scheduler_info : nat → list Worker;
  (** [client.submit(...)]: [Some e] when the call raises [e] *)
  submit : Task → option exn;
  (** [future.result()] of a resolved task *)
  result : Task → exn + TaskResult;
  (** the order in which the set [done] of [wait(...)] is iterated *)
  wait_done : list Task → list Task;
  (** [scattered_data.result()] of a test batch *)
  test_result : DataHandle → exn + TestBatch;
  (** [process_visualizations(client, completed_train_futures, "TRAIN", ...)]:
      [Some e] when the call raises [e] *)
  process_visualizations : list TaskResult → option exn
}.

(** Messages of [logging]; one constructor per call site. *)
Inductive message :=
  | EvaluatingThrottle
  | AdaptiveThrottling (attempt : Z) (last : Z)
  | ThrottlingFor (ty : phase) (n : Z) (alphas betas : list prior)
  | MaximumRetriesReached
  | ProceedingWithWorkload
  | TrainFutureAppended (total : nat)
  | TrainSubmitError (e : exn)
  | TrainContext (n : Z) (a b : prior)
  | ModelNotFound (k : ModelKey)
  | ValidationFutureAppended (total : nat)
  | ValidationSubmitError (e : exn)
  | ValidationContext (n : Z) (a b : prior)
  | TestFutureAppended (total : nat)
  | TestSubmitError (e : exn)
  | TestContext (n : Z) (alphas betas : list prior)
  | FinishedWrite.

Inductive level := INFO | WARNING | ERROR.

Definition LogRecord : Type := level * message.

(** The mutable variables of the sweep, and traces of its effects. *)
Record state := mkState {
  train_models_dict : gmap ModelKey Model;
  train_futures : list Task;
  validation_futures : list Task;
  test_futures : list Task;
  completed_train_futures : list TaskResult;
  completed_validation_futures : list TaskResult;
  completed_test_futures : list TaskResult;
  (** loop variables, rebound inside the iteration *)
  n_topics : Z;
  alpha_value : prior;
  beta_value : prior;
  num_workers : nat;
  (** [logging.*] calls, oldest first *)
  log : list LogRecord;
  (** [sleep(d)] calls, oldest first *)
  sleeps : list Qc;
  (** [client.scheduler_info()] calls so far *)
  polls : nat;
  (** [client.submit] calls that returned a future *)
  submitted : list Task;
  (** [progress_bar.update()] calls *)
  progress : nat;
  (** [client.rebalance()] calls *)
  rebalances : nat
}.

Definition set_dict (d : gmap ModelKey Model) (s : state) : state :=
  mkState
    d (train_futures s) (validation_futures s) (test_futures s)
    (completed_train_futures s) (completed_validation_futures s)
    (completed_test_futures s) (n_topics s) (alpha_value s) (beta_value s)
    (num_workers s) (log s) (sleeps s) (polls s) (submitted s) (progress s)
    (rebalances s).

Definition set_train_futures (l : list Task) (s : state) : state :=
  mkState
    (train_models_dict s) l (validation_futures s) (test_futures s)
    (completed_train_futures s) (completed_validation_futures s)
    (completed_test_futures s) (n_topics s) (alpha_value s) (beta_value s)
    (num_workers s) (log s) (sleeps s) (polls s) (submitted s) (progress s)
    (rebalances s).

Definition set_validation_futures (l : list Task) (s : state) : state :=
  mkState
    (train_models_dict s) (train_futures s) l (test_futures s)
    (completed_train_futures s) (completed_validation_futures s)
    (completed_test_futures s) (n_topics s) (alpha_value s) (beta_value s)
    (num_workers s) (log s) (sleeps s) (polls s) (submitted s) (progress s)
    (rebalances s).

Definition set_test_futures (l : list Task) (s : state) : state :=
  mkState
    (train_models_dict s) (train_futures s) (validation_futures s) l
    (completed_train_futures s) (completed_validation_futures s)
    (completed_test_futures s) (n_topics s) (alpha_value s) (beta_value s)
    (num_workers s) (log s) (sleeps s) (polls s) (submitted s) (progress s)
    (rebalances s).

Definition set_completed_train (l : list TaskResult) (s : state) : state :=
  mkState
    (train_models_dict s) (train_futures s) (validation_futures s)
    (test_futures s) l (completed_validation_futures s)
    (completed_test_futures s) (n_topics s) (alpha_value s) (beta_value s)
    (num_workers s) (log s) (sleeps s) (polls s) (submitted s) (progress s)
    (rebalances s).

Definition set_completed_validation (l : list TaskResult) (s : state) : state :=
  mkState
    (train_models_dict s) (train_futures s) (validation_futures s)
    (test_futures s) (completed_train_futures s) l
    (completed_test_futures s) (n_topics s) (alpha_value s) (beta_value s)
    (num_workers s) (log s) (sleeps s) (polls s) (submitted s) (progress s)
    (rebalances s).

Definition set_completed_test (l : list TaskResult) (s : state) : state :=
  mkState
    (train_models_dict s) (train_futures s) (validation_futures s)
    (test_futures s) (completed_train_futures s)
    (completed_validation_futures s) l (n_topics s) (alpha_value s)
    (beta_value s) (num_workers s) (log s) (sleeps s) (polls s)
    (submitted s) (progress s) (rebalances s).

Definition set_n_topics (n : Z) (s : state) : state :=
  mkState
    (train_models_dict s) (train_futures s) (validation_futures s)
    (test_futures s) (completed_train_futures s)
    (completed_validation_futures s) (completed_test_futures s) n
    (alpha_value s) (beta_value s) (num_workers s) (log s) (sleeps s)
    (polls s) (submitted s) (progress s) (rebalances s).

Definition set_alpha_value (a : prior) (s : state) : state :=
  mkState
    (train_models_dict s) (train_futures s) (validation_futures s)
    (test_futures s) (completed_train_futures s)
    (completed_validation_futures s) (completed_test_futures s) (n_topics s)
    a (beta_value s) (num_workers s) (log s) (sleeps s) (polls s)
    (submitted s) (progress s) (rebalances s).

Definition set_beta_value (b : prior) (s : state) : state :=
  mkState
    (train_models_dict s) (train_futures s) (validation_futures s)
    (test_futures s) (completed_train_futures s)
    (completed_validation_futures s) (completed_test_futures s) (n_topics s)
    (alpha_value s) b (num_workers s) (log s) (sleeps s) (polls s)
    (submitted s) (progress s) (rebalances s).

Definition set_num_workers (w : nat) (s : state) : state :=
  mkState
    (train_models_dict s) (train_futures s) (validation_futures s)
    (test_futures s) (completed_train_futures s)
    (completed_validation_futures s) (completed_test_futures s) (n_topics s)
    (alpha_value s) (beta_value s) w (log s) (sleeps s) (polls s)
    (submitted s) (progress s) (rebalances s).

(** [logging.info], [logging.warning], [logging.error] *)
Definition logging (l : level) (m : message) (s : state) : state :=
  mkState
    (train_models_dict s) (train_futures s) (validation_futures s)
    (test_futures s) (completed_train_futures s)
    (completed_validation_futures s) (completed_test_futures s) (n_topics s)
    (alpha_value s) (beta_value s) (num_workers s) (log s ++ [(l, m)])
    (sleeps s) (polls s) (submitted s) (progress s) (rebalances s).

Definition sleep (d : Qc) (s : state) : state :=
  mkState
    (train_models_dict s) (train_futures s) (validation_futures s)
    (test_futures s) (completed_train_futures s)
    (completed_validation_futures s) (completed_test_futures s) (n_topics s)
    (alpha_value s) (beta_value s) (num_workers s) (log s) (sleeps s ++ [d])
    (polls s) (submitted s) (progress s) (rebalances s).

Definition tick_poll (s : state) : state :=
  mkState
    (train_models_dict s) (train_futures s) (validation_futures s)
    (test_futures s) (completed_train_futures s)
    (completed_validation_futures s) (completed_test_futures s) (n_topics s)
    (alpha_value s) (beta_value s) (num_workers s) (log s) (sleeps s)
    (S (polls s)) (submitted s) (progress s) (rebalances s).

Definition record_submit (t : Task) (s : state) : state :=
  mkState
    (train_models_dict s) (train_futures s) (validation_futures s)
    (test_futures s) (completed_train_futures s)
    (completed_validation_futures s) (completed_test_futures s) (n_topics s)
    (alpha_value s) (beta_value s) (num_workers s) (log s) (sleeps s)
    (polls s) (submitted s ++ [t]) (progress s) (rebalances s).

Definition progress_update (s : state) : state :=
  mkState
    (train_models_dict s) (train_futures s) (validation_futures s)
    (test_futures s) (completed_train_futures s)
    (completed_validation_futures s) (completed_test_futures s) (n_topics s)
    (alpha_value s) (beta_value s) (num_workers s) (log s) (sleeps s)
    (polls s) (submitted s) (S (progress s)) (rebalances s).

Definition rebalance (s : state) : state :=
  mkState
    (train_models_dict s) (train_futures s) (validation_futures s)
    (test_futures s) (completed_train_futures s)
    (completed_validation_futures s) (completed_test_futures s) (n_topics s)
    (alpha_value s) (beta_value s) (num_workers s) (log s) (sleeps s)
    (polls s) (submitted s) (progress s) (S (rebalances s)).

(** The outcome of a statement: completion with a value, or an
    exception, each with the state reached. *)
Inductive res (A : Type) :=
  | Done (a : A) (s : state)
  | Raise (e : exn) (s : state).
Arguments Done {A} a s.
Arguments Raise {A} e s.

Definition final_state {A} (r : res A) : state :=
  match r with Done _ s => s | Raise _ s => s end.

(** Statements are state transformers that may raise. *)
Definition M (A : Type) : Type := state → res A.

Definition ret {A} (a : A) : M A := λ s, Done a s.

Definition raise {A} (e : exn) : M A := λ s, Raise e s.

Definition bind {A B} (m : M A) (k : A → M B) : M B :=
  λ s, match m s with
       | Done a s' => k a s'
       | Raise e s' => Raise e s'
       end.

(** A statement executed for its effect on the state only. *)
Definition modify (f : state → state) : M unit := λ s, Done tt (f s).

Definition get {A} (f : state → A) : M A := λ s, Done (f s) s.

(** A Python expression that may raise. *)
Definition lift {A} (r : exn + A) : M A :=
  match r with inl e => raise e | inr a => ret a end.

Notation "x <- m ;; k" := (bind m (λ x, k))
  (at level 100, m at next level, right associativity).
Notation "m ;;; k" := (bind m (λ _, k))
  (at level 100, right associativity).

(** ** Configuration: the module-level constants read by the sweep *)

Record Config := mkConfig {
  START_TOPICS : Z;
  END_TOPICS : Z;
  STEP_SIZE : Z;
  MAX_RETRIES : Z;
  BASE_WAIT_TIME : Z;
  CPU_UTILIZATION_THRESHOLD : Z;
  MEMORY_UTILIZATION_THRESHOLD : Z
}.

(** ** Library functions the grid is built with *)

Module Py.

(** [len(range(start, stop, step))] *)
Definition range_len (start stop step : Z) : Z :=
  if 0 <? step then
    if start <? stop then (stop - start - 1) `div` step + 1 else 0
  else
    if stop <? start then (start - stop - 1) `div` (- step) + 1 else 0.

(** [range(start, stop, step)]; a zero step raises [ValueError]. *)
Definition range (start stop step : Z) : exn + list Z :=
  if step =? 0 then inl ValueError
  else inr ((λ i : nat, start + Z.of_nat i * step)
              <$> seq 0 (Z.to_nat (range_len start stop step))).

(** [int(x)] of a float: truncation toward zero. *)
Definition int (x : Qc) : Z := Qnum x `quot` Zpos (Qden x).

(** [np.arange(start, stop, step).tolist()] for a positive step:
    [ceil((stop - start) / step)] values [start + i * step]. *)
Definition arange (start stop step : Qc) : list Qc :=
  (λ i : nat, start + Q2Qc (inject_Z (Z.of_nat i)) * step)%Qc
    <$> seq 0 (Z.to_nat (Qceiling ((stop - start) / step)%Qc)).

(** [itertools.product(ns, alphas, betas, phases)], the rightmost
    axis varying fastest. *)
Definition product (ns : list Z) (alphas betas : list prior)
    (phases : list phase) : list Combination :=
  n ← ns; a ← alphas; b ← betas; p ← phases; [(n, a, b, p)].

(** [random.sample(population, k)] by selection from a pool, as
    CPython draws it: the i-th element is [pool[j]] for
    [j = randbelow(n - i)], and the last live element of the pool
    moves into the vacancy.  [randbelow i bound] is the generator's
    i-th draw; it is reduced below the bound. *)
Fixpoint sample_pool {A} (randbelow : nat → nat → nat) (i : nat)
    (pool : list A) (k : nat) : list A :=
  match k with
  | O => []
  | S k' =>
      let n := length pool in
      let j := (randbelow i n `mod` n)%nat in
      match pool !! j, last pool with
      | Some x, Some y =>
          x :: sample_pool randbelow (S i) (take (n - 1) (<[j := y]> pool)) k'
      | _, _ => []
      end
  end.

(** [random.sample] raises [ValueError] when the sample is larger
    than the population or negative. *)
Definition sample {A} (randbelow : nat → nat → nat) (i : nat)
    (population : list A) (k : Z) : exn + list A :=
  if (k <? 0) || (Z.of_nat (length population) <? k) then inl ValueError
  else inr (sample_pool randbelow i population (Z.to_nat k)).

End Py.

(** ** Combination sampler (lines 483-543) *)

Definition q_hundredths (n : Z) : Qc := Q2Qc (n # 100).

(** [np.arange(0.01, 1, 0.3).tolist()] *)
Definition prior_steps : list prior :=
  Numeric <$> Py.arange (q_hundredths 1) 1%Qc (q_hundredths 30).

Definition alpha_values : list prior :=
  [Symbolic "symmetric"; Symbolic "asymmetric"] ++ prior_steps.

Definition beta_values : list prior :=
  [Symbolic "symmetric"] ++ prior_steps.

Definition phases : list phase := [train; validation; test].

(** [sample_fraction = 0.375] *)
Definition sample_fraction : Qc := Q2Qc (375 # 1000).

(** [min(max(1, int(len(combinations) * sample_fraction)), len(combinations))],
    for a population of [n] combinations. *)
Definition sample_size_of (fraction : Qc) (n : nat) : Z :=
  Z.min
    (Z.max 1 (Py.int (Q2Qc (inject_Z (Z.of_nat n)) * fraction)%Qc))
    (Z.of_nat n).

Definition sample_size (n : nat) : Z := sample_size_of sample_fraction n.

(** [list(set(combinations) - set(random_combinations))] *)
Definition undrawn (combinations random_combinations : list Combination)
    : list Combination :=
  elements ((list_to_set combinations : gset Combination)
              ∖ list_to_set random_combinations).

(** What the set-up of the grid leaves in scope for the sweep. *)
Record Grid := mkGrid {
  num_topics : nat;
  numeric_symmetric : Qc;
  combinations : list Combination;
  random_combinations : list Combination;
  undrawn_combinations : list Combination
}.

(** Lines 483-541.  The sample is drawn twice from the same generator;
    the second draw, and the remainder computed from it, are the ones
    the sweep sees.  [numeric_asymmetric], [numeric_alpha] and
    [numeric_beta] are computed by the script and never read; they are
    left out. *)
Definition make_grid (cfg : Config) (randbelow : nat → nat → nat)
    : exn + Grid :=
  match Py.range (START_TOPICS cfg) (END_TOPICS cfg + 1) (STEP_SIZE cfg) with
  | inl e => inl e
  | inr topic_range =>
      let num_topics := length topic_range in
      if decide (num_topics = 0%nat) then inl ZeroDivisionError
      else
        let numeric_symmetric :=
          (1 / Q2Qc (inject_Z (Z.of_nat num_topics)))%Qc in
        let combinations :=
          Py.product topic_range alpha_values beta_values phases in
        let sample_size := sample_size (length combinations) in
        match Py.sample randbelow 0 combinations sample_size with
        | inl e => inl e
        | inr first_draw =>
            match Py.sample randbelow (length first_draw)
                    combinations sample_size with
            | inl e => inl e
            | inr random_combinations =>
                inr (mkGrid num_topics numeric_symmetric combinations
                       random_combinations
                       (undrawn combinations random_combinations))
            end
        end
  end.

(** ** Control structures *)

(** [try: body  except Exception as e: handler(e)] *)
Definition try_except {A} (body : M A) (handler : exn → M A) : M A :=
  λ s, match body s with
       | Done a s' => Done a s'
       | Raise e s' => handler e s'
       end.

(** [for x in l: body(x)] *)
Fixpoint for_each {A} (l : list A) (body : A → M unit) : M unit :=
  match l with
  | [] => ret tt
  | x :: l' => body x ;;; for_each l' body
  end.

(** [[f(x) for x in l]] where [f] may raise *)
Fixpoint comprehension {A B} (l : list A) (f : A → exn + B) : M (list B) :=
  match l with
  | [] => ret []
  | x :: l' => y <- lift (f x) ;; ys <- comprehension l' f ;; ret (y :: ys)
  end.

(** [d[key]] of a dictionary read from a remote result *)
Definition getitem {A} (key : string) (v : option A) : exn + A :=
  match v with
  | Some a => inr a
  | None => inl (KeyError key)
  end.

(** [x[0] if isinstance(x, list) else x] *)
Definition first_if_list (x : str_field) : exn + prior :=
  match x with
  | Plain p => inr p
  | Listed (p :: _) => inr p
  | Listed [] => inl IndexError
  end.

(** How the body of the sweep's [for] loop ends. *)
Inductive flow :=
  | Recycled      (* ran through the recycle block *)
  | Continued     (* [continue] of the visualisation's [KeyError] *)
  | Broke.        (* [break] of the visualisation's other exceptions *)

(** One dictionary of [validation_batches]. *)
Record Batch := mkBatch {
  b_data : DataHandle;
  b_n_topics : Z;
  b_alpha : prior;
  b_beta : prior
}.

(** ** The sweep (lines 566-797) *)

Section Sweep.

Variable cfg : Config.
Variable env : Env.
Variable scattered_train_data_futures : list DataHandle.
Variable scattered_validation_data_futures : list DataHandle.
Variable scattered_test_data_futures : list DataHandle.
Variable random_combinations : list Combination.

(** [client.scheduler_info()['workers'].values()] *)
Definition poll_workers : M (list Worker) :=
  λ s, Done (scheduler_info env (polls s)) (tick_poll s).

(** [client.submit(train_model_v2, ...)] *)
Definition client_submit (t : Task) : M Task :=
  λ s, match submit env t with
       | Some e => Raise e s
       | None => Done t (record_submit t s)
       end.

(** *** Throttle (lines 571-594) *)

Definition all_workers_below_cpu_threshold (workers : list Worker) : bool :=
  forallb (λ w, bool_decide
                  (cpu w < Q2Qc (inject_Z (CPU_UTILIZATION_THRESHOLD cfg)))%Qc)
    workers.

Definition all_workers_below_memory_threshold (workers : list Worker) : bool :=
  forallb (λ w, memory w <? MEMORY_UTILIZATION_THRESHOLD cfg) workers.

(** [while throttle_attempt < MAX_RETRIES: ...]; [remaining] counts how
    often the guard can still hold, [MAX_RETRIES - throttle_attempt]. *)
Fixpoint throttle_while (remaining : nat) (train_eval_type : phase)
    (throttle_attempt : Z) : M Z :=
  match remaining with
  | O => ret throttle_attempt
  | S remaining' =>
      workers <- poll_workers ;;
      if negb (all_workers_below_cpu_threshold workers
               && all_workers_below_memory_threshold workers)
      then
        modify (logging WARNING
                  (AdaptiveThrottling throttle_attempt (MAX_RETRIES cfg - 1))) ;;;
        n <- get n_topics ;;
        modify (logging WARNING
                  (ThrottlingFor train_eval_type n alpha_values beta_values)) ;;;
        d <- lift (Utils.exponential_backoff throttle_attempt
                     (Some (Q2Qc (inject_Z (BASE_WAIT_TIME cfg))))) ;;
        modify (sleep d) ;;;
        throttle_while remaining' train_eval_type (throttle_attempt + 1)
      else ret throttle_attempt
  end.

Definition throttle (train_eval_type : phase) : M Z :=
  modify (logging INFO EvaluatingThrottle) ;;;
  throttle_attempt <-
    throttle_while (Z.to_nat (MAX_RETRIES cfg)) train_eval_type 0 ;;
  (if throttle_attempt =? MAX_RETRIES cfg
   then modify (logging WARNING MaximumRetriesReached)
   else modify (logging INFO ProceedingWithWorkload)) ;;;
  ret throttle_attempt.

(** *** Training phase (lines 598-641) *)

Definition train_submit_one (scattered_data : DataHandle) : M unit :=
  try_except
    (n <- get n_topics ;; a <- get alpha_value ;; b <- get beta_value ;;
     w <- get num_workers ;;
     future <- client_submit (mkTask n a b scattered_data train w None) ;;
     modify (λ s, set_train_futures (train_futures s ++ [future]) s) ;;;
     total <- get (λ s, length (train_futures s)) ;;
     modify (logging INFO (TrainFutureAppended total)))
    (λ e,
     modify (logging ERROR (TrainSubmitError e)) ;;;
     n <- get n_topics ;; a <- get alpha_value ;; b <- get beta_value ;;
     modify (logging ERROR (TrainContext n a b)) ;;;
     raise e).

Definition train_submit : M unit :=
  workers <- poll_workers ;;
  modify (set_num_workers (length workers)) ;;;
  for_each scattered_train_data_futures train_submit_one.

(** The body of [for train_result in completed_train_futures]. *)
Definition record_train_result (train_result : TaskResult) : M unit :=
  modify (set_n_topics (topics train_result)) ;;;
  a <- lift (first_if_list (alpha_str train_result)) ;;
  modify (set_alpha_value a) ;;;
  b <- lift (first_if_list (beta_str train_result)) ;;
  modify (set_beta_value b) ;;;
  modify (λ s, set_dict
                 (<[(n_topics s, alpha_value s, beta_value s)
                    := lda_model train_result]> (train_models_dict s)) s).

Definition train_wait : M unit :=
  futures <- get train_futures ;;
  completed <- comprehension (wait_done env futures) (result env) ;;
  modify (set_completed_train completed) ;;;
  for_each completed record_train_result.

(** *** Validation phase (lines 644-685) *)

Definition validation_batches : list Batch :=
  (λ '(tokenized_list, (n, alpha_value, beta_value, _)),
     mkBatch tokenized_list n alpha_value beta_value)
    <$> zip scattered_validation_data_futures random_combinations.

Definition validation_submit_one (batch : Batch) : M unit :=
  try_except
    (let validation_data := b_data batch in
     modify (set_n_topics (b_n_topics batch)) ;;;
     modify (set_alpha_value (b_alpha batch)) ;;;
     modify (set_beta_value (b_beta batch)) ;;;
     n <- get n_topics ;; a <- get alpha_value ;; b <- get beta_value ;;
     let model_key := (n, a, b) in
     d <- get train_models_dict ;;
     match d !! model_key with
     | None => modify (logging ERROR (ModelNotFound model_key))
     | Some ldamodel =>
         w <- get num_workers ;;
         future <- client_submit
                     (mkTask n a b validation_data validation w (Some ldamodel)) ;;
         modify (λ s, set_validation_futures (validation_futures s ++ [future]) s) ;;;
         total <- get (λ s, length (validation_futures s)) ;;
         modify (logging INFO (ValidationFutureAppended total))
     end)
    (λ e,
     modify (logging ERROR (ValidationSubmitError e)) ;;;
     n <- get n_topics ;; a <- get alpha_value ;; b <- get beta_value ;;
     modify (logging ERROR (ValidationContext n a b))).

Definition validation_submit : M unit :=
  for_each validation_batches validation_submit_one.

Definition validation_wait : M unit :=
  futures <- get validation_futures ;;
  completed <- comprehension (wait_done env futures) (result env) ;;
  modify (set_completed_validation completed).

(** *** Test phase (lines 691-720) *)

Definition test_submit_one (scattered_data : DataHandle) : M unit :=
  try_except
    (test_result <- lift (test_result env scattered_data) ;;
     n <- lift (getitem "n_topics" (tb_n_topics test_result)) ;;
     modify (set_n_topics n) ;;;
     a <- lift (getitem "alpha_value" (tb_alpha_value test_result)) ;;
     modify (set_alpha_value a) ;;;
     b <- lift (getitem "beta_value" (tb_beta_value test_result)) ;;
     modify (set_beta_value b) ;;;
     let model_key := (n, a, b) in
     d <- get train_models_dict ;;
     match d !! model_key with
     | None => modify (logging ERROR (ModelNotFound model_key))
     | Some ldamodel =>
         w <- get num_workers ;;
         future <- client_submit
                     (mkTask n a b scattered_data test w (Some ldamodel)) ;;
         modify (λ s, set_test_futures (test_futures s ++ [future]) s) ;;;
         total <- get (λ s, length (test_futures s)) ;;
         modify (logging INFO (TestFutureAppended total))
     end)
    (λ e,
     modify (logging ERROR (TestSubmitError e)) ;;;
     n <- get n_topics ;;
     modify (logging ERROR (TestContext n alpha_values beta_values))).

Definition test_submit : M unit :=
  for_each scattered_test_data_futures test_submit_one.

Definition test_wait : M unit :=
  futures <- get test_futures ;;
  completed <- comprehension (wait_done env futures) (result env) ;;
  modify (set_completed_test completed).

(** *** Recycle block (lines 786-797) *)

Definition recycle : M unit :=
  modify (logging INFO FinishedWrite) ;;;
  modify progress_update ;;;
  modify (set_completed_train []) ;;;
  modify (set_completed_validation []) ;;;
  modify (set_completed_test []) ;;;
  modify (set_test_futures []) ;;;
  modify (set_validation_futures []) ;;;
  modify (set_train_futures []) ;;;
  modify rebalance.

(** *** Visualisation (lines 738-755), then the recycle block *)

Definition visualize_and_recycle : M flow :=
  workers <- poll_workers ;;
  modify (set_num_workers (length workers)) ;;;
  completed <- get completed_train_futures ;;
  match process_visualizations env completed with
  | Some (KeyError _) => ret Continued
  | Some _ => ret Broke
  | None => recycle ;;; ret Recycled
  end.

(** *** One iteration of the sweep *)

(** Everything after the admission check. *)
Definition after_throttle : M flow :=
  train_submit ;;;
  train_wait ;;;
  validation_submit ;;;
  validation_wait ;;;
  test_submit ;;;
  test_wait ;;;
  visualize_and_recycle.

Definition iteration (c : Combination) : M flow :=
  let '(n, a, b, train_eval_type) := c in
  modify (set_n_topics n) ;;;
  modify (set_alpha_value a) ;;;
  modify (set_beta_value b) ;;;
  throttle train_eval_type ;;;
  after_throttle.

(** [for i, (...) in enumerate(random_combinations): ...] over the
    combinations still to visit. *)
Fixpoint sweep_from (todo : list Combination) : M unit :=
  match todo with
  | [] => ret tt
  | c :: todo' =>
      f <- iteration c ;;
      match f with
      | Broke => ret tt
      | Recycled | Continued => sweep_from todo'
      end
  end.

Definition sweep : M unit := sweep_from random_combinations.

End Sweep.

(** The state at line 566: [train_models_dict = {}] and empty future
    lists; the loop variables are bound by the first iteration. *)
Definition initial_state : state :=
  mkState ∅ [] [] [] [] [] [] 0 (Symbolic "") (Symbolic "") 0 [] [] 0 [] 0 0.

(** * Vocabulary of the properties *)

(** ** The admission check *)




(** ** Relations between states *)

(** A statement maintains [R] when the state it ends in, normally or
    by an exception, is related to the state it started from. *)
Definition preserves {A} (R : state → state → Prop) (m : M A) : Prop :=
  ∀ s, R s (final_state (m s)).

(** The key under which [record_train_result] files a result, when
    reading the result does not raise. *)
Definition result_key (r : TaskResult) : option ModelKey :=
  match first_if_list (alpha_str r), first_if_list (beta_str r) with
  | inr a, inr b => Some (topics r, a, b)
  | _, _ => None
  end.

(** [d[k] = m] for each pair of [writes], in order. *)
Definition apply_writes (d : gmap ModelKey Model)
    (writes : list (ModelKey * Model)) : gmap ModelKey Model :=
  foldl (λ d km, <[km.1 := km.2]> d) d writes.

(** [s'] has the dictionary of [s] after some assignments, each of the
    artifact of a resolved task under that result's key. *)
Definition written_from (env : Env) (s s' : state) : Prop :=
  ∃ writes,
    train_models_dict s' = apply_writes (train_models_dict s) writes
    ∧ Forall (λ km, ∃ t r, result env t = inr r
                           ∧ result_key r = Some km.1
                           ∧ lda_model r = km.2) writes.



(** ** Batches and tasks *)

(** The variables a validation batch rebinds. *)
Definition bind_batch (batch : Batch) (s : state) : state :=
  set_beta_value (b_beta batch)
    (set_alpha_value (b_alpha batch) (set_n_topics (b_n_topics batch) s)).

Definition batch_key (batch : Batch) : ModelKey :=
  (b_n_topics batch, b_alpha batch, b_beta batch).

Definition validation_task (w : nat) (batch : Batch) (m : Model) : Task :=
  mkTask (b_n_topics batch) (b_alpha batch) (b_beta batch) (b_data batch)
    validation w (Some m).

Definition test_task (w : nat) (k : ModelKey) (h : DataHandle) (m : Model)
    : Task :=
  mkTask (k.1.1) (k.1.2) (k.2) h test w (Some m).

(** The variables a test batch with key [k] rebinds. *)
Definition bind_key (k : ModelKey) (s : state) : state :=
  set_beta_value (k.2) (set_alpha_value (k.1.2) (set_n_topics (k.1.1) s)).

(** A test batch whose metadata holds the three values of [k]. *)
Definition test_batch_of (k : ModelKey) : TestBatch :=
  mkTestBatch (Some (k.1.1)) (Some (k.1.2)) (Some (k.2)).

(** The task the validation loop hands to the substrate for a batch,
    when the index has the batch's key and the submission succeeds. *)
Definition admitted (env : Env) (w : nat) (d : gmap ModelKey Model)
    (batch : Batch) : option Task :=
  m ← d !! batch_key batch;
  match submit env (validation_task w batch m) with
  | None => Some (validation_task w batch m)
  | Some _ => None
  end.


Definition current_task (s : state) (h : DataHandle) : Task :=
  mkTask (n_topics s) (alpha_value s) (beta_value s) h train
    (num_workers s) None.


(** ** The sample size *)

(** Python's [round]: to the nearest integer, a tie to the even one. *)
Definition py_round (x : Qc) : Z :=
  let f := Qfloor x in
  match (x - Q2Qc (inject_Z f) ?= Q2Qc (1 # 2))%Qc with
  | Lt => f
  | Gt => f + 1
  | Eq => if Z.even f then f else f + 1
  end.

(** The sample size as C5 words it:
    [clamp(round(fraction * N), 1, N)]. *)
Definition claimed_sample_size (fraction : Qc) (n : nat) : Z :=
  Z.min
    (Z.max 1 (py_round (fraction * Q2Qc (inject_Z (Z.of_nat n)))%Qc))
    (Z.of_nat n).

(** ** Concrete collaborators for the examples *)

Module Example.

(** Five retries from 30 seconds, the script's defaults; thresholds
    100 percent and 4 GiB. *)
Definition cfg : Config := mkConfig 5 10 5 5 30 100 4294967296.

Definition idle : list Worker := [mkWorker 0%Qc 0].
Definition loaded : list Worker :=
  [mkWorker 0%Qc 0; mkWorker (Q2Qc (inject_Z 100)) 0].

(** Every task resolves to a result that repeats its parameters; the
    artifact records the topic count it was trained with. *)
Definition echo (t : Task) : exn + TaskResult :=
  inr (mkResult (t_n_topics t) (Plain (t_alpha t)) (Plain (t_beta t))
         (Z.to_nat (t_n_topics t))).

Definition sym : prior := Symbolic "symmetric".

Definition c0 : Combination := (5, sym, sym, train).
Definition c1 : Combination := (10, sym, sym, validation).

(** A substrate whose workers are loaded for the first [busy_polls]
    polls and idle afterwards; it refuses every submission when
    [refuse] is set.  Every test batch carries the key of [c0]. *)
Definition env (busy_polls : nat) (refuse : bool) : Env :=
  mkEnv (λ n, if (n <? busy_polls)%nat then loaded else idle)
        (λ _, if refuse then Some (Exception "refused") else None)
        echo (λ l, l)
        (λ _, inr (mkTestBatch (Some 5) (Some sym) (Some sym)))
        (λ _, None).


(** A state whose index holds an artifact for [c0]. *)
Definition trained_c0 (s : state) : state :=
  set_dict (<[(5, sym, sym) := 5%nat]> (train_models_dict s)) s.

End Example.

(** * The rest of the script *)

(** ** The regular expressions of [parse_args] *)

Module Re.

(** The constructs of Python's [re] that the script's pattern uses: a
    character set of ranges, concatenation, a bounded repetition
    [r{lo,hi}] and the anchor [$]. *)
Inductive regex :=
  | Class (ranges : list (ascii * ascii))
  | Seq (r1 r2 : regex)
  | Repeat (r : regex) (lo hi : nat)
  | Dollar.

Definition in_range (c : ascii) (range : ascii * ascii) : bool :=
  (nat_of_ascii (range.1) <=? nat_of_ascii c)%nat
  && (nat_of_ascii c <=? nat_of_ascii (range.2))%nat.

Definition in_class (ranges : list (ascii * ascii)) (c : ascii) : bool :=
  existsb (in_range c) ranges.

Definition newline : ascii := "010"%char.

(** [$] without [re.MULTILINE]: at the end of the string, or just
    before a newline that ends it. *)
Definition at_end (s : list ascii) : bool :=
  bool_decide (s = []) || bool_decide (s = [newline]).

(** Between [lo] and [hi] rounds of [step], every way of stopping. *)
Fixpoint repeat_run (step : list ascii → list (list ascii)) (lo hi : nat)
    (s : list ascii) : list (list ascii) :=
  match hi with
  | O => match lo with O => [s] | S _ => [] end
  | S hi' =>
      match lo with O => [s] | S _ => [] end
      ++ (step s ≫= repeat_run step (pred lo) hi')
  end.

(** What is left of [s] after a match of [r] at its start, for every
    way the match can go. *)
Fixpoint run (r : regex) (s : list ascii) : list (list ascii) :=
  match r with
  | Class ranges =>
      match s with
      | c :: s' => if in_class ranges c then [s'] else []
      | [] => []
      end
  | Seq r1 r2 => run r1 s ≫= run r2
  | Repeat r lo hi => repeat_run (run r) lo hi s
  | Dollar => if at_end s then [s] else []
  end.

(** [re.match(r, s)] is not [None]. *)
Definition matches (r : regex) (s : string) : bool :=
  match run r (String.list_ascii_of_string s) with
  | [] => false
  | _ :: _ => true
  end.

End Re.

(** ** Argument checks (lines 127-159) *)

(** [[a-z]] and [[a-z0-9_]] *)
Definition lower : list (ascii * ascii) := [("a", "z")]%char.
Definition word : list (ascii * ascii) :=
  [("a", "z"); ("0", "9"); ("_", "_")]%char.

(** [r'^[a-z][a-z0-9_]{0,62}$']; under [re.match] the leading [^] adds
    nothing. *)
Definition corpus_label_re : Re.regex :=
  Re.Seq (Re.Class lower) (Re.Seq (Re.Repeat (Re.Class word) 0 62) Re.Dollar).

Definition invalid_corpus_label : string :=
  "Invalid corpus_label: must start with a lowercase letter, can only contain lowercase letters, numbers, and underscores, and be up to 63 characters long.".

(** The values [argparse] returns, by option name; [None] for an option
    that was not given. *)
Definition Args : Type := string → option string.

(** Lines 127-133: the message of the [sys.exit(1)] path, if taken.
    An empty label is falsy and is not looked at. *)
Definition validate_corpus_label (args : Args) : option string :=
  match args "corpus_label" with
  | Some corpus_label =>
      if bool_decide (corpus_label ≠ "")
      then if negb (Re.matches corpus_label_re corpus_label)
           then Some invalid_corpus_label
           else None
      else None
  | None => None
  end.

(** [required_args], in the order of the dictionary. *)
Definition required_args : list (string * string) :=
  [("username", "No value was entered for username");
   ("password", "No value was entered for password");
   ("database", "No value was entered for database");
   ("corpus_label", "No value was entered for corpus_label");
   ("data_source", "No value was entered for data_source");
   ("end_topics", "No value was entered for end_topics");
   ("step_size", "No value was entered for step_size");
   ("max_memory", "No value was entered for max_memory");
   ("mem_threshold", "No value was entered for mem_threshold");
   ("futures_batches", "No value was entered for futures_batches")].

(** Lines 155-159: [for arg, error_msg in required.items(): if
    getattr(args, arg) is None: ...; sys.exit(1)]. *)
Fixpoint first_missing (required : list (string * string)) (args : Args)
    : option string :=
  match required with
  | [] => None
  | (arg, error_msg) :: required' =>
      match args arg with
      | None => Some error_msg
      | Some _ => first_missing required' args
      end
  end.

(** Both checks in the order the script runs them: the message the
    script exits with, or [None] when it goes on. *)
Definition argument_checks (args : Args) : option string :=
  match validate_corpus_label args with
  | Some error_msg => Some error_msg
  | None => first_missing required_args args
  end.

(** ** Data partitioner (lines 423-469) *)

(** One [batch_info] of [futures_create_lda_datasets]. *)
Record BatchInfo := mkBatchInfo {
  bi_type : string;
  bi_data : nat
}.

(** The three lists of scattered futures, and the [logging.error]
    calls of the loop, each with the pool it names. *)
Record Placement := mkPlacement {
  scattered_train_data_futures : list DataHandle;
  scattered_validation_data_futures : list DataHandle;
  scattered_test_data_futures : list DataHandle;
  placement_errors : list (phase * exn)
}.

(** The body of [for batch_info in futures_create_lda_datasets(...)];
    [scatter] is [client.scatter]. *)
Definition place_batch (scatter : nat → exn + DataHandle)
    (p : Placement) (batch_info : BatchInfo) : Placement :=
  if bool_decide (bi_type batch_info = "train") then
    match scatter (bi_data batch_info) with
    | inr scattered_future =>
        mkPlacement
          (scattered_train_data_futures p ++ [scattered_future])
          (scattered_validation_data_futures p)
          (scattered_test_data_futures p) (placement_errors p)
    | inl e =>
        mkPlacement
          (scattered_train_data_futures p)
          (scattered_validation_data_futures p)
          (scattered_test_data_futures p)
          (placement_errors p ++ [(train, e)])
    end
  else if bool_decide (bi_type batch_info = "validation") then
    match scatter (bi_data batch_info) with
    | inr scattered_future =>
        mkPlacement
          (scattered_train_data_futures p)
          (scattered_validation_data_futures p ++ [scattered_future])
          (scattered_test_data_futures p) (placement_errors p)
    | inl e =>
        mkPlacement
          (scattered_train_data_futures p)
          (scattered_validation_data_futures p)
          (scattered_test_data_futures p)
          (placement_errors p ++ [(validation, e)])
    end
  else if bool_decide (bi_type batch_info = "test") then
    match scatter (bi_data batch_info) with
    | inr scattered_future =>
        mkPlacement
          (scattered_train_data_futures p)
          (scattered_validation_data_futures p)
          (scattered_test_data_futures p ++ [scattered_future])
          (placement_errors p)
    | inl e =>
        mkPlacement
          (scattered_train_data_futures p)
          (scattered_validation_data_futures p)
          (scattered_test_data_futures p)
          (placement_errors p ++ [(test, e)])
    end
  else p.

Definition place_batches (scatter : nat → exn + DataHandle)
    (batches : list BatchInfo) : Placement :=
  foldl (place_batch scatter) (mkPlacement [] [] [] []) batches.

(** What the loop does with a batch: the pool it goes to and whether
    the placement succeeded. *)
Definition placed_in (scatter : nat → exn + DataHandle) (tag : string)
    (batch_info : BatchInfo) : option DataHandle :=
  if bool_decide (bi_type batch_info = tag)
  then match scatter (bi_data batch_info) with
       | inr f => Some f
       | inl _ => None
       end
  else None.

Definition failed_in (scatter : nat → exn + DataHandle)
    (batch_info : BatchInfo) : option (phase * exn) :=
  match scatter (bi_data batch_info) with
  | inl e =>
      if bool_decide (bi_type batch_info = "train") then Some (train, e)
      else if bool_decide (bi_type batch_info = "validation")
      then Some (validation, e)
      else if bool_decide (bi_type batch_info = "test") then Some (test, e)
      else None
  | inr _ => None
  end.

Definition known_type (batch_info : BatchInfo) : bool :=
  bool_decide (bi_type batch_info = "train")
  || bool_decide (bi_type batch_info = "validation")
  || bool_decide (bi_type batch_info = "test").

(** ** The total of the progress bar (line 555) *)

Definition TOTAL_COMBINATIONS (random_combinations : list Combination)
    (train_pool validation_pool test_pool : list DataHandle) : nat :=
  (length random_combinations
   * (length train_pool + length validation_pool + length test_pool))%nat.

(** ** Vocabulary of the further properties *)



(** The dictionary assignments of the loop over the joined training
    results, in order. *)
Definition writes_of (completed : list TaskResult)
    : list (ModelKey * Model) :=
  omap (λ r, k ← result_key r; Some (k, lda_model r)) completed.

(** The task the test loop hands to the substrate for a batch, when the
    batch's metadata can be read, the index has its key and the
    submission succeeds. *)
Definition test_admitted (env : Env) (w : nat) (d : gmap ModelKey Model)
    (h : DataHandle) : option Task :=
  match test_result env h with
  | inr tb =>
      n ← tb_n_topics tb; a ← tb_alpha_value tb; b ← tb_beta_value tb;
      m ← d !! (n, a, b);
      match submit env (mkTask n a b h test w (Some m)) with
      | None => Some (mkTask n a b h test w (Some m))
      | Some _ => None
      end
  | inl _ => None
  end.

(** The recycle block has not run between [s] and [s']: the progress
    bar and the rebalance count are as they were, and the future lists
    have only grown. *)
Definition retains (s s' : state) : Prop :=
  progress s' = progress s ∧ rebalances s' = rebalances s
  ∧ train_futures s `prefix_of` train_futures s'
  ∧ validation_futures s `prefix_of` validation_futures s'
  ∧ test_futures s `prefix_of` test_futures s'.

(** The recycle block has run once between [s] and [s'], and nothing
    after it. *)
Definition recycled (s s' : state) : Prop :=
  progress s' = S (progress s) ∧ rebalances s' = S (rebalances s)
  ∧ train_futures s' = [] ∧ validation_futures s' = []
  ∧ test_futures s' = []
  ∧ completed_train_futures s' = []
  ∧ completed_validation_futures s' = []
  ∧ completed_test_futures s' = [].

(** How an iteration that started in [s] may end. *)
Definition outcome_ok (s : state) (r : res flow) : Prop :=
  match r with
  | Done Recycled s' => recycled s s'
  | Done _ s' | Raise _ s' => retains s s'
  end.

(** A statement makes at most [n] successful submissions. *)
Definition submits_at_most (n : nat) {A} (m : M A) : Prop :=
  ∀ s, ∃ new, submitted (final_state (m s)) = submitted s ++ new
              ∧ (length new <= n)%nat.


(** * Properties *)

(** ** Exponential backoff *)


(** C10. Without [BASE_WAIT_TIME] the call raises [TypeError] whatever
    the attempt; with a numeric [BASE_WAIT_TIME] it returns the duration
    [BASE_WAIT_TIME * 2 ** attempt]; and whenever it returns a duration,
    the caller passed a number. *)
Theorem exponential_backoff_default_raises :
  (∀ attempt, Utils.exponential_backoff attempt None = inl TypeError)
  ∧ (∀ attempt b,
       Utils.exponential_backoff attempt (Some b)
       = inr (b * Utils.pow2 attempt)%Qc)
  ∧ (∀ attempt base d,
       Utils.exponential_backoff attempt base = inr d →
       ∃ b, base = Some b ∧ d = (b * Utils.pow2 attempt)%Qc).
Proof.
  split; [done | split; [done |]].
  intros attempt [b|] d H; [| discriminate].
  injection H as <-. by exists b.
Qed.

(** ** The admission check *)

Section Throttle.

Variable cfg : Config.
Variable env : Env.






End Throttle.

(** ** The admission check inside an iteration *)

Section Admission.

Variable cfg : Config.
Variable env : Env.
Variables train_pool validation_pool test_pool : list DataHandle.
Variable random_combinations : list Combination.

Local Abbreviation after_throttle :=
  (after_throttle env train_pool validation_pool test_pool
     random_combinations).
Local Abbreviation iteration :=
  (iteration cfg env train_pool validation_pool test_pool
     random_combinations).


(** A negative [MAX_RETRIES] is outside the reading of the constant as
    a count: the loop is not entered, nothing is polled, and the check
    logs that it proceeds. *)
Lemma throttle_negative_retries ty s :
  MAX_RETRIES cfg < 0 →
  throttle cfg env ty s
  = Done 0 (logging INFO ProceedingWithWorkload
              (logging INFO EvaluatingThrottle s)).
Proof.
  intros Hneg. unfold throttle, bind, modify.
  destruct (MAX_RETRIES cfg) as [|p|p]; [lia | lia | reflexivity].
Qed.


End Admission.

(** ** Relations that every statement of the sweep maintains *)

Section Preserves.

Variable R : state → state → Prop.
Hypothesis R_refl : ∀ s, R s s.
Hypothesis R_trans : ∀ s1 s2 s3, R s1 s2 → R s2 s3 → R s1 s3.

Lemma preserves_ret {A} (a : A) : preserves R (ret a).
Proof. intros s. apply R_refl. Qed.

Lemma preserves_raise {A} e : preserves R (raise (A := A) e).
Proof. intros s. apply R_refl. Qed.

Lemma preserves_get {A} (f : state → A) : preserves R (get f).
Proof. intros s. apply R_refl. Qed.

Lemma preserves_lift {A} (r : exn + A) : preserves R (lift r).
Proof. destruct r; intros s; apply R_refl. Qed.

Lemma preserves_modify f : (∀ s, R s (f s)) → preserves R (modify f).
Proof. intros H s. apply H. Qed.

Lemma preserves_bind {A B} (m : M A) (k : A → M B) :
  preserves R m → (∀ a, preserves R (k a)) → preserves R (bind m k).
Proof.
  intros Hm Hk s. unfold bind. specialize (Hm s).
  destruct (m s) as [a s'|e s']; simpl in *; [| done].
  eapply R_trans; [exact Hm | apply Hk].
Qed.

Lemma preserves_try_except {A} (body : M A) handler :
  preserves R body → (∀ e, preserves R (handler e)) →
  preserves R (try_except body handler).
Proof.
  intros Hb Hh s. unfold try_except. specialize (Hb s).
  destruct (body s) as [a s'|e s']; simpl in *; [done |].
  eapply R_trans; [exact Hb | apply Hh].
Qed.

Lemma preserves_for_each {A} (l : list A) body :
  (∀ x, x ∈ l → preserves R (body x)) → preserves R (for_each l body).
Proof.
  induction l as [|x l IH]; intros H; simpl.
  - apply preserves_ret.
  - apply preserves_bind; [apply H; left |].
    intros _. apply IH. intros y Hy. apply H. by right.
Qed.

Lemma preserves_comprehension {A B} (l : list A) (f : A → exn + B) :
  preserves R (comprehension l f).
Proof.
  induction l as [|x l IH]; simpl; [apply preserves_ret |].
  apply preserves_bind; [apply preserves_lift |]. intros y.
  apply preserves_bind; [apply IH |]. intros ys. apply preserves_ret.
Qed.

End Preserves.

(** A comprehension leaves the state alone, and each element of its
    value is the image of the element at the same position. *)
Lemma comprehension_done {A B} (l : list A) (f : A → exn + B) s ys s' :
  comprehension l f s = Done ys s' →
  s' = s ∧ Forall2 (λ x y, f x = inr y) l ys.
Proof.
  revert ys. induction l as [|x l IH]; intros ys; simpl.
  - unfold ret. intros [= <- <-]. by split.
  - unfold bind at 1, lift. destruct (f x) as [e|y] eqn:Hfx;
      [discriminate |].
    unfold ret at 1, bind at 1.
    destruct (comprehension l f s) as [ys' s''|e s''] eqn:Hrest;
      [| discriminate].
    unfold ret. intros [= <- <-].
    destruct (IH ys' eq_refl) as [-> Hall]. split; [done |].
    by constructor.
Qed.

Lemma comprehension_raise_state {A B} (l : list A) (f : A → exn + B) s :
  final_state (comprehension l f s) = s.
Proof.
  pose proof (preserves_comprehension (λ s s', s' = s)
                ltac:(done) ltac:(congruence) l f s) as H.
  exact H.
Qed.

(** ** What happens to [train_models_dict] *)

Lemma written_from_same env s s' :
  train_models_dict s' = train_models_dict s → written_from env s s'.
Proof. intros H. exists []. by split. Qed.

Lemma written_from_refl env s : written_from env s s.
Proof. by apply written_from_same. Qed.



Lemma apply_writes_other d writes k :
  Forall (λ km, km.1 ≠ k) writes → apply_writes d writes !! k = d !! k.
Proof.
  revert d. induction writes as [|[k' m'] ws IH]; intros d Hall; [done |].
  apply Forall_cons in Hall as [Hk Hall]. simpl in *.
  rewrite IH by done. by rewrite lookup_insert_ne.
Qed.

(** Decomposition of a statement along its structure, for a reflexive
    and transitive relation. *)
Ltac preserves_step Hrefl Htrans :=
  lazymatch goal with
  | |- preserves _ (ret _) => apply preserves_ret
  | |- preserves _ (raise _) => apply preserves_raise
  | |- preserves _ (get _) => apply preserves_get
  | |- preserves _ (lift _) => apply preserves_lift
  | |- preserves _ (comprehension _ _) => apply preserves_comprehension
  | |- preserves _ (bind _ _) => apply preserves_bind
  | |- preserves _ (try_except _ _) => apply preserves_try_except
  | |- preserves _ (for_each _ _) => apply preserves_for_each
  | |- preserves _ (modify _) => apply preserves_modify
  | |- preserves _ (match ?x with _ => _ end) => destruct x
  | |- preserves _ _ => fail
  | |- ∀ _, _ => first [exact Hrefl | exact Htrans | intro]
  end.

Ltac preserves_auto Hrefl Htrans := repeat preserves_step Hrefl Htrans.

Section Dictionary.

Variable cfg : Config.
Variable env : Env.
Variables train_pool validation_pool test_pool : list DataHandle.
Variable random_combinations : list Combination.

Variable R : state → state → Prop.
Hypothesis R_same :
  ∀ s s', train_models_dict s' = train_models_dict s → R s s'.
Hypothesis R_trans : ∀ s1 s2 s3, R s1 s2 → R s2 s3 → R s1 s3.
(** The one dictionary assignment of the sweep, for a result that some
    task resolved to. *)
Hypothesis R_record :
  ∀ t r, result env t = inr r → preserves R (record_train_result r).

Local Lemma R_refl s : R s s.
Proof. by apply R_same. Qed.

Local Ltac quiet :=
  preserves_auto R_refl R_trans; auto; try (apply R_same; reflexivity).

Lemma preserves_poll_workers : preserves R (poll_workers env).
Proof. intros s. by apply R_same. Qed.

Lemma preserves_client_submit t : preserves R (client_submit env t).
Proof.
  intros s. unfold client_submit. destruct (submit env t); by apply R_same.
Qed.

Local Hint Resolve preserves_poll_workers preserves_client_submit : core.

Lemma preserves_throttle_while remaining ty a :
  preserves R (throttle_while cfg env remaining ty a).
Proof.
  revert a. induction remaining as [|r IH]; intros a; simpl; quiet.
Qed.

Lemma preserves_throttle ty : preserves R (throttle cfg env ty).
Proof. unfold throttle. quiet. apply preserves_throttle_while. Qed.

Lemma preserves_train_submit : preserves R (train_submit env train_pool).
Proof. unfold train_submit, train_submit_one. quiet. Qed.

Lemma preserves_train_wait : preserves R (train_wait env).
Proof.
  intros s. unfold train_wait, bind at 1, get. unfold bind at 1.
  destruct (comprehension _ _ s) as [completed s'|e s'] eqn:Hc.
  - apply comprehension_done in Hc as [-> Hall].
    unfold bind, modify.
    apply (R_trans _ (set_completed_train completed s));
      [apply R_same; reflexivity |].
    apply (preserves_for_each R R_refl R_trans).
    intros r Hr. apply list_elem_of_lookup in Hr as [i Hi].
    destruct (Forall2_lookup_r _ _ _ _ _ Hall Hi) as (t & _ & Ht).
    by eapply R_record.
  - pose proof (comprehension_raise_state
                  (wait_done env (train_futures s)) (result env) s) as H.
    rewrite Hc in H. simpl in *. subst s'. apply R_refl.
Qed.

Lemma preserves_validation_submit :
  preserves R (validation_submit env validation_pool random_combinations).
Proof. unfold validation_submit, validation_submit_one. quiet. Qed.

Lemma preserves_validation_wait : preserves R (validation_wait env).
Proof. unfold validation_wait. quiet. Qed.

Lemma preserves_test_submit : preserves R (test_submit env test_pool).
Proof. unfold test_submit, test_submit_one. quiet. Qed.

Lemma preserves_test_wait : preserves R (test_wait env).
Proof. unfold test_wait. quiet. Qed.

Lemma preserves_recycle : preserves R recycle.
Proof. unfold recycle. quiet. Qed.

Lemma preserves_visualize_and_recycle :
  preserves R (visualize_and_recycle env).
Proof.
  unfold visualize_and_recycle. quiet. apply preserves_recycle.
Qed.

Lemma preserves_after_throttle :
  preserves R (after_throttle env train_pool validation_pool test_pool
                 random_combinations).
Proof.
  unfold after_throttle.
  quiet;
    auto using preserves_train_submit, preserves_train_wait,
      preserves_validation_submit, preserves_validation_wait,
      preserves_test_submit, preserves_test_wait,
      preserves_visualize_and_recycle.
Qed.

Lemma preserves_iteration c :
  preserves R (iteration cfg env train_pool validation_pool test_pool
                 random_combinations c).
Proof.
  destruct c as [[[n a] b] ty]. unfold iteration.
  quiet; auto using preserves_throttle, preserves_after_throttle.
Qed.

Lemma preserves_sweep_from todo :
  preserves R (sweep_from cfg env train_pool validation_pool test_pool
                 random_combinations todo).
Proof.
  induction todo as [|c todo IH]; simpl;
    [apply preserves_ret, R_refl |].
  apply preserves_bind;
    [exact R_trans | apply preserves_iteration |].
  intros []; auto; apply preserves_ret, R_refl.
Qed.

End Dictionary.

(** ** The model index across iterations *)



Section ModelIndex.

Variable cfg : Config.
Variable env : Env.
Variables train_pool validation_pool test_pool : list DataHandle.
Variable random_combinations : list Combination.

Local Abbreviation iteration :=
  (iteration cfg env train_pool validation_pool test_pool
     random_combinations).



End ModelIndex.

(** ** The submission loops, one batch at a time *)

Lemma for_each_cons {A} (x : A) l body s :
  for_each (x :: l) body s
  = match body x s with
    | Done _ s' => for_each l body s'
    | Raise e s' => Raise e s'
    end.
Proof. reflexivity. Qed.


Section Batches.

Variable env : Env.

(** Inside this section [simpl] unfolds the setters of the state. *)
#[local] Arguments set_dict /.
#[local] Arguments set_train_futures /.
#[local] Arguments set_validation_futures /.
#[local] Arguments set_test_futures /.
#[local] Arguments set_completed_train /.
#[local] Arguments set_completed_validation /.
#[local] Arguments set_completed_test /.
#[local] Arguments set_n_topics /.
#[local] Arguments set_alpha_value /.
#[local] Arguments set_beta_value /.
#[local] Arguments set_num_workers /.
#[local] Arguments logging /.
#[local] Arguments sleep /.
#[local] Arguments tick_poll /.
#[local] Arguments record_submit /.
#[local] Arguments progress_update /.
#[local] Arguments rebalance /.

Lemma validation_submit_one_miss batch s :
  train_models_dict s !! batch_key batch = None →
  validation_submit_one env batch s
  = Done tt (logging ERROR (ModelNotFound (batch_key batch))
               (bind_batch batch s)).
Proof.
  intros H. unfold validation_submit_one, try_except, bind, modify, get.
  unfold batch_key in H. simpl in *. by rewrite H.
Qed.

Lemma validation_submit_one_ok batch s m :
  train_models_dict s !! batch_key batch = Some m →
  submit env (validation_task (num_workers s) batch m) = None →
  let t := validation_task (num_workers s) batch m in
  validation_submit_one env batch s
  = Done tt
      (logging INFO
         (ValidationFutureAppended (length (validation_futures s ++ [t])))
         (set_validation_futures (validation_futures s ++ [t])
            (record_submit t (bind_batch batch s)))).
Proof.
  intros H Hsub.
  unfold validation_submit_one, try_except, bind, modify, get,
    client_submit.
  unfold batch_key in H. unfold validation_task in Hsub.
  simpl in *. rewrite H. simpl. by rewrite Hsub.
Qed.

Lemma validation_submit_one_raise batch s m e :
  train_models_dict s !! batch_key batch = Some m →
  submit env (validation_task (num_workers s) batch m) = Some e →
  validation_submit_one env batch s
  = Done tt
      (logging ERROR
         (ValidationContext (b_n_topics batch) (b_alpha batch) (b_beta batch))
         (logging ERROR (ValidationSubmitError e) (bind_batch batch s))).
Proof.
  intros H Hsub.
  unfold validation_submit_one, try_except, bind, modify, get,
    client_submit.
  unfold batch_key in H. unfold validation_task in Hsub.
  simpl in *. rewrite H. simpl. by rewrite Hsub.
Qed.

Lemma test_submit_one_unreadable h s e :
  test_result env h = inl e →
  test_submit_one env h s
  = Done tt
      (logging ERROR (TestContext (n_topics s) alpha_values beta_values)
         (logging ERROR (TestSubmitError e) s)).
Proof.
  intros H. unfold test_submit_one, try_except, bind, modify, get, lift.
  by rewrite H.
Qed.

Lemma test_submit_one_miss h s k :
  test_result env h = inr (test_batch_of k) →
  train_models_dict s !! k = None →
  test_submit_one env h s
  = Done tt (logging ERROR (ModelNotFound k) (bind_key k s)).
Proof.
  intros Hr H. destruct k as [[n a] b].
  unfold test_submit_one, try_except, bind, modify, get, lift.
  rewrite Hr. simpl in *. by rewrite H.
Qed.

Lemma test_submit_one_ok h s k m :
  test_result env h = inr (test_batch_of k) →
  train_models_dict s !! k = Some m →
  submit env (test_task (num_workers s) k h m) = None →
  let t := test_task (num_workers s) k h m in
  test_submit_one env h s
  = Done tt
      (logging INFO (TestFutureAppended (length (test_futures s ++ [t])))
         (set_test_futures (test_futures s ++ [t])
            (record_submit t (bind_key k s)))).
Proof.
  intros Hr H Hsub. destruct k as [[n a] b].
  unfold test_submit_one, try_except, bind, modify, get, lift,
    client_submit.
  rewrite Hr. unfold test_task in Hsub. simpl in *. rewrite H.
  simpl. by rewrite Hsub.
Qed.





End Batches.

(** ** Validation: which handle meets which key *)

Lemma validation_loop_submitted env batches : ∀ s,
  ∃ s', for_each batches (validation_submit_one env) s = Done tt s'
        ∧ train_models_dict s' = train_models_dict s
        ∧ num_workers s' = num_workers s
        ∧ submitted s'
          = submitted s
            ++ omap (admitted env (num_workers s) (train_models_dict s))
                 batches.
Proof.
  induction batches as [|batch batches IH]; intros s.
  - exists s. by rewrite app_nil_r.
  - rewrite for_each_cons. cbn [omap list_omap]. unfold admitted at 1.
    destruct (train_models_dict s !! batch_key batch) as [m|] eqn:Hk;
      cbn [mbind option_bind].
    + destruct (submit env (validation_task (num_workers s) batch m))
        as [e|] eqn:Hsub.
      * rewrite (validation_submit_one_raise env batch s m e) by done.
        destruct (IH (logging ERROR
                        (ValidationContext (b_n_topics batch)
                           (b_alpha batch) (b_beta batch))
                        (logging ERROR (ValidationSubmitError e)
                           (bind_batch batch s))))
          as (s' & -> & Hd & Hw & Hs).
        exists s'. by rewrite Hd, Hw, Hs.
      * rewrite (validation_submit_one_ok env batch s m) by done.
        match goal with |- ∃ _, for_each _ _ ?s1 = _ ∧ _ =>
          destruct (IH s1) as (s' & -> & Hd & Hw & Hs) end.
        exists s'. rewrite Hd, Hw, Hs. simpl. by rewrite <- app_assoc.
    + rewrite (validation_submit_one_miss env batch s) by done.
      destruct (IH (logging ERROR (ModelNotFound (batch_key batch))
                      (bind_batch batch s)))
        as (s' & -> & Hd & Hw & Hs).
      exists s'. by rewrite Hd, Hw, Hs.
Qed.




(** C9. [zip] stops at the shorter list: there are as many validation
    batches as the shorter of the pool and the sampled list has
    elements; no batch exists at a position beyond either list; and the
    submission loop, its submissions and its log records are those of
    the run with the pool cut to the length of the sampled list, and of
    the run with the sampled list cut to the length of the pool. *)
Theorem validation_pairing_truncates env pool combos s :
  length (validation_batches pool combos)
    = (length pool `min` length combos)%nat
  ∧ (∀ j, (length combos <= j)%nat →
          validation_batches pool combos !! j = None)
  ∧ (∀ j, (length pool <= j)%nat →
          validation_batches pool combos !! j = None)
  ∧ validation_submit env pool combos s
    = validation_submit env (take (length combos) pool) combos s
  ∧ validation_submit env pool combos s
    = validation_submit env pool (take (length pool) combos) s.
Proof.
  unfold validation_submit, validation_batches.
  rewrite length_fmap, length_zip_with.
  split; [done |]. split; [| split; [| split]].
  - intros j Hj. rewrite list_lookup_fmap.
    replace (zip pool combos !! j) with (@None (DataHandle * Combination));
      [done |].
    symmetry. apply lookup_zip_with_None. right. by apply lookup_ge_None.
  - intros j Hj. rewrite list_lookup_fmap.
    replace (zip pool combos !! j) with (@None (DataHandle * Combination));
      [done |].
    symmetry. apply lookup_zip_with_None. left. by apply lookup_ge_None.
  - by rewrite zip_with_take_l.
  - by rewrite zip_with_take_r.
Qed.

(** ** Lookup misses and submission failures *)

Section Failures.

Variable cfg : Config.
Variable env : Env.
Variables train_pool validation_pool test_pool : list DataHandle.
Variable random_combinations : list Combination.

(** C4. A validation batch, or a test batch whose metadata can be read,
    whose key is not in the index: the loop body ends normally, nothing
    is submitted and no future is kept, the log grows by the one error
    record naming the key, and the loop goes on with the next batch. *)
Theorem missing_model_skips_batch :
  (∀ batch rest s,
     train_models_dict s !! batch_key batch = None →
     ∃ s',
       validation_submit_one env batch s = Done tt s'
       ∧ submitted s' = submitted s
       ∧ validation_futures s' = validation_futures s
       ∧ log s' = log s ++ [(ERROR, ModelNotFound (batch_key batch))]
       ∧ for_each (batch :: rest) (validation_submit_one env) s
         = for_each rest (validation_submit_one env) s')
  ∧ (∀ h k rest s,
       test_result env h = inr (test_batch_of k) →
       train_models_dict s !! k = None →
       ∃ s',
         test_submit_one env h s = Done tt s'
         ∧ submitted s' = submitted s
         ∧ test_futures s' = test_futures s
         ∧ log s' = log s ++ [(ERROR, ModelNotFound k)]
         ∧ for_each (h :: rest) (test_submit_one env) s
           = for_each rest (test_submit_one env) s').
Proof.
  split.
  - intros batch rest s Hk. eexists.
    split; [by apply validation_submit_one_miss |].
    rewrite for_each_cons, validation_submit_one_miss by done.
    repeat split.
  - intros h k rest s Hr Hk. eexists.
    split; [by apply test_submit_one_miss |].
    rewrite for_each_cons, (test_submit_one_miss env h s k) by done.
    repeat split.
Qed.

(** *** Training submissions *)

Lemma train_submit_one_ok h s :
  submit env (current_task s h) = None →
  train_submit_one env h s
  = Done tt
      (logging INFO
         (TrainFutureAppended (length (train_futures s ++ [current_task s h])))
         (set_train_futures (train_futures s ++ [current_task s h])
            (record_submit (current_task s h) s))).
Proof.
  intros H. unfold train_submit_one, try_except, bind, modify, get,
    client_submit.
  unfold current_task in H. by rewrite H.
Qed.

Lemma train_submit_one_raise h s e :
  submit env (current_task s h) = Some e →
  train_submit_one env h s
  = Raise e
      (logging ERROR
         (TrainContext (n_topics s) (alpha_value s) (beta_value s))
         (logging ERROR (TrainSubmitError e) s)).
Proof.
  intros H. unfold train_submit_one, try_except, bind, modify, get,
    client_submit, raise.
  unfold current_task in H. by rewrite H.
Qed.




End Failures.

Section SubmissionFailures.

Variable cfg : Config.
Variable env : Env.
Variables train_pool validation_pool test_pool : list DataHandle.
Variable random_combinations : list Combination.

Local Abbreviation iteration :=
  (iteration cfg env train_pool validation_pool test_pool
     random_combinations).
Local Abbreviation sweep_rest :=
  (sweep_from cfg env train_pool validation_pool test_pool
     random_combinations).




End SubmissionFailures.

(** ** The combination sampler *)

Section Sampling.

Context {A : Type}.
Variable randbelow : nat → nat → nat.

Lemma sample_pool_length (k : nat) : ∀ i (pool : list A),
  (k <= length pool)%nat →
  length (Py.sample_pool randbelow i pool k) = k.
Proof.
  induction k as [|k IH]; intros i pool Hk; [done |].
  cbn [Py.sample_pool].
  assert (Hn : (0 < length pool)%nat) by lia.
  destruct (lookup_lt_is_Some_2 pool (randbelow i (length pool)
                                       `mod` length pool)%nat) as [x ->].
  { apply Nat.mod_upper_bound. lia. }
  destruct (proj2 (last_is_Some pool)) as [y ->].
  { intros ->. simpl in Hn. lia. }
  simpl. f_equal. apply IH.
  rewrite length_take, length_insert. lia.
Qed.

Lemma sample_pool_subset (k : nat) : ∀ i (pool : list A) x,
  x ∈ Py.sample_pool randbelow i pool k → x ∈ pool.
Proof.
  induction k as [|k IH]; intros i pool x; cbn [Py.sample_pool].
  - intros H. by apply elem_of_nil in H.
  - destruct (pool !! _) as [x0|] eqn:Hx0;
      [| intros H; by apply elem_of_nil in H].
    destruct (last pool) as [y|] eqn:Hy;
      [| intros H; by apply elem_of_nil in H].
    intros [->|Hin]%elem_of_cons.
    + by eapply list_elem_of_lookup_2.
    + apply IH in Hin. apply elem_of_take in Hin as (j & Hj & _).
      apply list_lookup_insert_Some in Hj as [(_ & <- & _)|(_ & Hj)].
      * by apply last_Some_elem_of.
      * by eapply list_elem_of_lookup_2.
Qed.

Lemma sample_in_range i (population : list A) (k : Z) :
  0 <= k <= Z.of_nat (length population) →
  Py.sample randbelow i population k
  = inr (Py.sample_pool randbelow i population (Z.to_nat k)).
Proof.
  intros Hk. unfold Py.sample.
  destruct (Z.ltb_spec k 0); [lia |].
  destruct (Z.ltb_spec (Z.of_nat (length population)) k); [lia | done].
Qed.

End Sampling.

Lemma sample_size_of_range fraction n :
  0 <= sample_size_of fraction n <= Z.of_nat n.
Proof. unfold sample_size_of. lia. Qed.

Lemma sample_size_of_positive fraction n :
  (1 <= n)%nat → 1 <= sample_size_of fraction n.
Proof. unfold sample_size_of. lia. Qed.

(** [int] of a non-negative float is its floor. *)
Lemma py_int_floor (x : Qc) : (0 <= x)%Qc → Py.int x = Qfloor x.
Proof.
  destruct x as [[n d] Hc]. unfold Qcle, Qle, Py.int, Qfloor. simpl.
  intros Hn. apply Z.quot_div_nonneg; lia.
Qed.

(** C5, as stated, fails: of five combinations at the fraction 0.375 the
    script samples [int(1.875) = 1], the claim's formula gives
    [round(1.875) = 2]; and on the grid of the topic range {5, 10} the
    script samples 67 of the 180 combinations, the formula gives 68. *)
Lemma sample_size_is_not_rounded :
  sample_size 5 = 1 ∧ claimed_sample_size sample_fraction 5 = 2
  ∧ match make_grid Example.cfg (λ _ _, 0%nat) with
    | inr g =>
        length (random_combinations g) = 67%nat
        ∧ claimed_sample_size sample_fraction (length (combinations g)) = 68
    | inl _ => False
    end.
Proof. by vm_compute. Qed.

(** C5, amended. For every fraction and every population the draw
    succeeds, and the number of sampled elements is
    [clamp(int(N * fraction), 1, N)], where [int] truncates toward zero
    (the floor, for a non-negative product); for [N >= 1] it lies
    between 1 and [N]. *)
Theorem sample_count_truncates (randbelow : nat → nat → nat) (i : nat)
    (population : list Combination) (fraction : Qc) :
  let N := length population in
  let x := (Q2Qc (inject_Z (Z.of_nat N)) * fraction)%Qc in
  ∃ drawn,
    Py.sample randbelow i population (sample_size_of fraction N) = inr drawn
    ∧ Z.of_nat (length drawn)
      = Z.min (Z.max 1 (Qnum x `quot` Zpos (Qden x))) (Z.of_nat N)
    ∧ ((0 <= x)%Qc →
       Z.of_nat (length drawn) = Z.min (Z.max 1 (Qfloor x)) (Z.of_nat N))
    ∧ ((1 <= N)%nat → (1 <= length drawn <= N)%nat).
Proof.
  intros N x.
  pose proof (sample_size_of_range fraction N) as Hr.
  exists (Py.sample_pool randbelow i population
            (Z.to_nat (sample_size_of fraction N))).
  split; [by apply sample_in_range |].
  rewrite sample_pool_length by (fold N; lia).
  rewrite Z2Nat.id by lia.
  split; [done |]. split.
  - intros Hx. unfold sample_size_of. fold x. by rewrite py_int_floor.
  - intros HN. pose proof (sample_size_of_positive fraction N HN). lia.
Qed.

(** What [make_grid] returns when it returns. *)
Lemma make_grid_inv cfg randbelow g :
  make_grid cfg randbelow = inr g →
  ∃ topic_range i,
    Py.range (START_TOPICS cfg) (END_TOPICS cfg + 1) (STEP_SIZE cfg)
      = inr topic_range
    ∧ num_topics g = length topic_range
    ∧ num_topics g ≠ 0%nat
    ∧ numeric_symmetric g
      = (1 / Q2Qc (inject_Z (Z.of_nat (num_topics g))))%Qc
    ∧ combinations g
      = Py.product topic_range alpha_values beta_values phases
    ∧ random_combinations g
      = Py.sample_pool randbelow i (combinations g)
          (Z.to_nat (sample_size (length (combinations g))))
    ∧ undrawn_combinations g
      = undrawn (combinations g) (random_combinations g).
Proof.
  unfold make_grid.
  destruct (Py.range _ _ _) as [e|topic_range]; [discriminate |].
  destruct (decide (length topic_range = 0%nat)) as [|Hne]; [discriminate |].
  set (combos := Py.product topic_range alpha_values beta_values phases).
  pose proof (sample_size_of_range sample_fraction (length combos)) as Hr.
  fold (sample_size (length combos)) in Hr.
  rewrite !sample_in_range by done.
  intros [= <-]. exists topic_range. eexists. simpl. repeat split; done.
Qed.

(** And it returns whenever the topic range is legal and not empty. *)
Lemma make_grid_defined cfg randbelow topic_range :
  Py.range (START_TOPICS cfg) (END_TOPICS cfg + 1) (STEP_SIZE cfg)
    = inr topic_range →
  topic_range ≠ [] →
  ∃ g, make_grid cfg randbelow = inr g.
Proof.
  intros Hrange Hne. unfold make_grid. rewrite Hrange.
  destruct (decide (length topic_range = 0%nat)) as [H0|_].
  { by apply nil_length_inv in H0. }
  set (combos := Py.product topic_range alpha_values beta_values phases).
  pose proof (sample_size_of_range sample_fraction (length combos)) as Hr.
  fold (sample_size (length combos)) in Hr.
  rewrite !sample_in_range by done. eauto.
Qed.

Lemma product_spec ns alphas betas phs (c : Combination) :
  c ∈ Py.product ns alphas betas phs ↔
  c.1.1.1 ∈ ns ∧ c.1.1.2 ∈ alphas ∧ c.1.2 ∈ betas ∧ c.2 ∈ phs.
Proof.
  destruct c as [[[n a] b] p]. unfold Py.product. simpl. split.
  - intros (n' & H & Hn)%list_elem_of_bind.
    apply list_elem_of_bind in H as (a' & H & Ha).
    apply list_elem_of_bind in H as (b' & H & Hb).
    apply list_elem_of_bind in H as (p' & H & Hp).
    apply list_elem_of_singleton in H as [= -> -> -> ->]. done.
  - intros (Hn & Ha & Hb & Hp).
    apply list_elem_of_bind. exists n. split; [| done].
    apply list_elem_of_bind. exists a. split; [| done].
    apply list_elem_of_bind. exists b. split; [| done].
    apply list_elem_of_bind. exists p. split; [| done].
    by apply list_elem_of_singleton.
Qed.

Lemma undrawn_spec combos drawn (c : Combination) :
  c ∈ undrawn combos drawn ↔ c ∈ combos ∧ c ∉ drawn.
Proof.
  unfold undrawn.
  by rewrite elem_of_elements, elem_of_difference, !elem_of_list_to_set.
Qed.

(** C6. Whenever the grid is built, no sampled combination is among the
    undrawn ones, a combination belongs to the sampled or to the undrawn
    ones exactly when it belongs to the full list (the same holds of
    the sets of the three lists), and the full list holds exactly the
    tuples of a topic count of the range, a value of [alpha_values], a
    value of [beta_values] and a phase. *)
Theorem sampled_and_undrawn_partition cfg randbelow g :
  make_grid cfg randbelow = inr g →
  (∀ c, c ∈ random_combinations g → c ∉ undrawn_combinations g)
  ∧ (∀ c, c ∈ random_combinations g ∨ c ∈ undrawn_combinations g
          ↔ c ∈ combinations g)
  ∧ (list_to_set (random_combinations g) : gset Combination)
      ## list_to_set (undrawn_combinations g)
  ∧ (list_to_set (random_combinations g) : gset Combination)
      ∪ list_to_set (undrawn_combinations g)
    = list_to_set (combinations g)
  ∧ ∃ topic_range,
      Py.range (START_TOPICS cfg) (END_TOPICS cfg + 1) (STEP_SIZE cfg)
        = inr topic_range
      ∧ ∀ c : Combination,
          c ∈ combinations g ↔
          c.1.1.1 ∈ topic_range ∧ c.1.1.2 ∈ alpha_values
          ∧ c.1.2 ∈ beta_values ∧ c.2 ∈ phases.
Proof.
  intros Hg.
  destruct (make_grid_inv cfg randbelow g Hg)
    as (topic_range & i & Hrange & _ & _ & _ & Hcombos & Hdrawn & Hundrawn).
  assert (Hsub : ∀ c, c ∈ random_combinations g → c ∈ combinations g).
  { intros c. rewrite Hdrawn. apply sample_pool_subset. }
  assert (Hdisj : ∀ c, c ∈ random_combinations g →
                       c ∉ undrawn_combinations g).
  { intros c Hc. rewrite Hundrawn, undrawn_spec. tauto. }
  assert (Hunion : ∀ c, c ∈ random_combinations g
                        ∨ c ∈ undrawn_combinations g
                        ↔ c ∈ combinations g).
  { intros c. rewrite Hundrawn, undrawn_spec. split.
    - intros [?|[? _]]; auto.
    - intros Hc.
      destruct (decide (c ∈ random_combinations g)); [by left | by right]. }
  split; [exact Hdisj |]. split; [exact Hunion |]. split; [| split].
  - intros c. rewrite !elem_of_list_to_set. intros H1 H2.
    by apply (Hdisj c).
  - apply set_eq. intros c.
    rewrite elem_of_union, !elem_of_list_to_set. apply Hunion.
  - exists topic_range. split; [done |]. intros c.
    rewrite Hcombos. apply product_spec.
Qed.

(** C8, as stated, fails: for the topic range {5, 10} with step 5 the
    full product has 180 elements, not 24, and 67 are sampled, not 9. *)
Lemma grid_of_two_topic_counts_is_not_24 :
  match make_grid Example.cfg (λ _ _, 0%nat) with
  | inr g =>
      num_topics g = 2%nat
      ∧ length (combinations g) ≠ 24%nat
      ∧ length (random_combinations g) ≠ 9%nat
  | inl _ => False
  end.
Proof. vm_compute. repeat split; discriminate. Qed.

(** C8, amended. For the topic range {5, 10} with step 5, whatever the
    generator draws: [num_topics = 2] and [numeric_symmetric = 0.5];
    the product has [2 * 6 * 5 * 3 = 180] elements, [alpha_values]
    having six entries and [beta_values] five; and
    [sample_size = int(0.375 * 180) = int(67.5) = 67] combinations are
    sampled. *)
Theorem grid_of_two_topic_counts (randbelow : nat → nat → nat) :
  ∃ g,
    make_grid Example.cfg randbelow = inr g
    ∧ num_topics g = 2%nat
    ∧ numeric_symmetric g = Q2Qc (1 # 2)
    ∧ length alpha_values = 6%nat ∧ length beta_values = 5%nat
    ∧ length phases = 3%nat
    ∧ length (combinations g) = 180%nat
    ∧ sample_size (length (combinations g)) = 67
    ∧ length (random_combinations g) = 67%nat.
Proof.
  destruct (make_grid_defined Example.cfg randbelow [5; 10]) as [g Hg];
    [by vm_compute | done |].
  exists g. split; [exact Hg |].
  destruct (make_grid_inv _ _ _ Hg)
    as (topic_range & i & Hrange & Hnum & _ & Hsym & Hcombos & Hdrawn & _).
  assert (topic_range = [5; 10]) as -> by (vm_compute in Hrange; congruence).
  assert (Hlen : length (combinations g) = 180%nat)
    by (rewrite Hcombos; by vm_compute).
  assert (Hsize : sample_size 180 = 67) by (by vm_compute).
  split; [by rewrite Hnum |].
  split; [rewrite Hsym, Hnum; apply Qc_is_canon; by vm_compute |].
  split; [by vm_compute |]. split; [by vm_compute |]. split; [done |].
  split; [exact Hlen |]. rewrite Hlen. split; [exact Hsize |].
  rewrite Hdrawn, sample_pool_length; rewrite Hlen, Hsize; [done | lia].
Qed.

(** * The theorems at concrete inputs *)

(** Without a base wait time the third attempt raises; from 30 seconds
    it waits [30 * 2 ** 3] seconds. *)
Lemma exponential_backoff_default_raises_witness :
  Utils.exponential_backoff 3 None = inl TypeError
  ∧ ∃ b, Some (Q2Qc (inject_Z 30)) = Some b
         ∧ (Q2Qc (inject_Z 30) * Utils.pow2 3)%Qc = (b * Utils.pow2 3)%Qc.
Proof.
  destruct exponential_backoff_default_raises as (Hnone & Hsome & Honly).
  split; [apply Hnone |].
  apply (Honly 3 (Some (Q2Qc (inject_Z 30)))). reflexivity.
Defined.




(** An empty index: the validation batch and the test batch are each
    skipped with one error record. *)
Lemma missing_model_skips_batch_witness :
  let batch := mkBatch 1%nat 5 Example.sym Example.sym in
  (∃ s',
     validation_submit_one (Example.env 0 false) batch initial_state
       = Done tt s'
     ∧ submitted s' = []
     ∧ log s' = [(ERROR, ModelNotFound (5, Example.sym, Example.sym))])
  ∧ (∃ s',
       test_submit_one (Example.env 0 false) 3%nat initial_state
         = Done tt s'
       ∧ submitted s' = []
       ∧ log s' = [(ERROR, ModelNotFound (5, Example.sym, Example.sym))]).
Proof.
  intros batch.
  destruct (missing_model_skips_batch (Example.env 0 false)) as [Hv Ht].
  split.
  - destruct (Hv batch [] initial_state) as (s' & Hrun & Hsub & _ & Hlog & _);
      [by vm_compute |].
    exists s'. split; [exact Hrun |]. split; [exact Hsub | exact Hlog].
  - destruct (Ht 3%nat (5, Example.sym, Example.sym) [] initial_state)
      as (s' & Hrun & Hsub & _ & Hlog & _);
      [reflexivity | by vm_compute |].
    exists s'. split; [exact Hrun |]. split; [exact Hsub | exact Hlog].
Defined.


(** Of three elements at the fraction one half, [int(1.5) = 1] is
    drawn. *)
Lemma sample_count_truncates_witness :
  ∃ drawn,
    Py.sample (λ _ _, 0%nat) 0 [Example.c0; Example.c1; Example.c0]
      (sample_size_of (Q2Qc (1 # 2)) 3) = inr drawn
    ∧ Z.of_nat (length drawn) = 1.
Proof.
  destruct (sample_count_truncates (λ _ _, 0%nat) 0
              [Example.c0; Example.c1; Example.c0] (Q2Qc (1 # 2)))
    as (drawn & Hrun & _ & Hfloor & _).
  exists drawn. split; [exact Hrun |].
  rewrite Hfloor; [by vm_compute |]. by vm_compute.
Defined.

(** The grid of the topic range {5, 10}, drawn by a generator that
    always answers 0. *)
Lemma sampled_and_undrawn_partition_witness :
  ∃ g,
    make_grid Example.cfg (λ _ _, 0%nat) = inr g
    ∧ (∀ c, c ∈ random_combinations g → c ∉ undrawn_combinations g)
    ∧ (∀ c, c ∈ random_combinations g ∨ c ∈ undrawn_combinations g
            ↔ c ∈ combinations g).
Proof.
  destruct (make_grid_defined Example.cfg (λ _ _, 0%nat) [5; 10])
    as [g Hg]; [by vm_compute | done |].
  exists g. split; [exact Hg |].
  destruct (sampled_and_undrawn_partition Example.cfg (λ _ _, 0%nat) g Hg)
    as (Hdisj & Hunion & _).
  split; [exact Hdisj | exact Hunion].
Defined.

(** Three validation handles against two sampled combinations: two
    batches, none at position 2. *)
Lemma validation_pairing_truncates_witness :
  length (validation_batches [1%nat; 2%nat; 3%nat] [Example.c0; Example.c1])
    = 2%nat
  ∧ validation_batches [1%nat; 2%nat; 3%nat] [Example.c0; Example.c1]
      !! 2%nat = None.
Proof.
  destruct (validation_pairing_truncates (Example.env 0 false)
              [1%nat; 2%nat; 3%nat] [Example.c0; Example.c1] initial_state)
    as (Hlen & Hexcess & _).
  split; [exact Hlen |]. apply Hexcess. simpl. lia.
Defined.

(** * Further properties of the script *)

(** ** Backoff durations *)








(** ** The admission check, whatever the polls report *)





Section AdmissionAlways.

Variable cfg : Config.
Variable env : Env.



End AdmissionAlways.

(** ** Who writes the model index *)

(** Only [TRAIN_WAIT] assigns into [train_models_dict]: the admission
    check, the three submission loops, the validation and test joins
    and the visualisation with the recycle block all leave it as it
    is, however they end. *)
Theorem index_written_only_by_train_wait (cfg : Config) (env : Env)
    (train_pool validation_pool test_pool : list DataHandle)
    (random_combinations : list Combination) (ty : phase) (s : state) :
  train_models_dict (final_state (throttle cfg env ty s))
    = train_models_dict s
  ∧ train_models_dict (final_state (train_submit env train_pool s))
    = train_models_dict s
  ∧ train_models_dict
      (final_state
         (validation_submit env validation_pool random_combinations s))
    = train_models_dict s
  ∧ train_models_dict (final_state (validation_wait env s))
    = train_models_dict s
  ∧ train_models_dict (final_state (test_submit env test_pool s))
    = train_models_dict s
  ∧ train_models_dict (final_state (test_wait env s))
    = train_models_dict s
  ∧ train_models_dict (final_state (visualize_and_recycle env s))
    = train_models_dict s.
Proof.
  set (R := λ s s' : state, train_models_dict s' = train_models_dict s).
  assert (Hsame : ∀ s s', train_models_dict s' = train_models_dict s → R s s')
    by done.
  assert (Htrans : ∀ s1 s2 s3, R s1 s2 → R s2 s3 → R s1 s3)
    by (unfold R; congruence).
  repeat split.
  - apply (preserves_throttle cfg env R Hsame Htrans).
  - apply (preserves_train_submit env train_pool R Hsame Htrans).
  - apply (preserves_validation_submit env validation_pool
             random_combinations R Hsame Htrans).
  - apply (preserves_validation_wait env R Hsame Htrans).
  - apply (preserves_test_submit env test_pool R Hsame Htrans).
  - apply (preserves_test_wait env R Hsame Htrans).
  - apply (preserves_visualize_and_recycle env R Hsame Htrans).
Qed.

(** ** [TRAIN_WAIT]: the last result under a key wins *)

Lemma apply_writes_app d w1 w2 :
  apply_writes d (w1 ++ w2) = apply_writes (apply_writes d w1) w2.
Proof. unfold apply_writes. by rewrite foldl_app. Qed.

Lemma writes_of_app l1 l2 :
  writes_of (l1 ++ l2) = writes_of l1 ++ writes_of l2.
Proof. unfold writes_of. by rewrite omap_app. Qed.

Lemma writes_of_other completed k :
  (∀ r, r ∈ completed → result_key r ≠ Some k) →
  Forall (λ km, km.1 ≠ k) (writes_of completed).
Proof.
  intros H. apply Forall_forall. intros [k' m] Hin.
  apply list_elem_of_omap in Hin as (r & Hr & Hkm).
  destruct (result_key r) as [k0|] eqn:Hk0; [| discriminate].
  simpl in *. injection Hkm as <- <-. intros ->. by apply (H r).
Qed.

Lemma comprehension_ok {A B} (l : list A) (f : A → exn + B) s :
  (∀ x, x ∈ l → ∃ y, f x = inr y) →
  ∃ ys, comprehension l f s = Done ys s
        ∧ Forall2 (λ x y, f x = inr y) l ys.
Proof.
  induction l as [|x l IH]; intros H.
  - exists []. by split.
  - destruct (H x ltac:(left)) as [y Hy].
    destruct IH as (ys & Hrun & Hall); [intros x' Hx'; apply H; by right |].
    exists (y :: ys). simpl. unfold bind at 1, lift. rewrite Hy.
    unfold ret at 1, bind at 1. rewrite Hrun. split; [done |].
    by constructor.
Qed.

Section Recording.

#[local] Arguments set_dict /.
#[local] Arguments set_n_topics /.
#[local] Arguments set_alpha_value /.
#[local] Arguments set_beta_value /.
#[local] Arguments set_completed_train /.

Lemma record_train_result_ok r k s :
  result_key r = Some k →
  ∃ s', record_train_result r s = Done tt s'
        ∧ train_models_dict s' = <[k := lda_model r]> (train_models_dict s)
        ∧ completed_train_futures s' = completed_train_futures s
        ∧ submitted s' = submitted s
        ∧ train_futures s' = train_futures s.
Proof.
  unfold result_key, record_train_result, bind, modify, lift.
  destruct (first_if_list (alpha_str r)) as [e|a]; [discriminate |].
  destruct (first_if_list (beta_str r)) as [e|b]; [discriminate |].
  intros [= <-]. eexists. split; [reflexivity |]. by simpl.
Qed.

Lemma record_loop_ok completed : ∀ s,
  (∀ r, r ∈ completed → is_Some (result_key r)) →
  ∃ s', for_each completed record_train_result s = Done tt s'
        ∧ train_models_dict s'
          = apply_writes (train_models_dict s) (writes_of completed)
        ∧ completed_train_futures s' = completed_train_futures s
        ∧ submitted s' = submitted s
        ∧ train_futures s' = train_futures s.
Proof.
  induction completed as [|r completed IH]; intros s Hkeys.
  - exists s. by repeat split.
  - destruct (Hkeys r ltac:(left)) as [k Hk].
    destruct (record_train_result_ok r k s Hk)
      as (s1 & Hrun & Hd & Hc & Hs & Hf).
    destruct (IH s1) as (s' & Hrest & Hd' & Hc' & Hs' & Hf');
      [intros r' Hr'; apply Hkeys; by right |].
    exists s'. rewrite for_each_cons, Hrun.
    split; [exact Hrest |].
    rewrite Hd', Hc', Hs', Hf', Hd. unfold writes_of at 2. simpl.
    rewrite Hk. simpl. by repeat split.
Qed.

(** When every joined future resolves to a result whose key can be
    read, [TRAIN_WAIT] ends normally and keeps the results; the index
    then has an entry for the key of every joined result; of the
    results that share a key, the last in the join's order gives the
    entry; and a key that no joined result has is as it was. *)
Theorem train_wait_last_writer_wins (env : Env) (s : state) :
  (∀ t, t ∈ wait_done env (train_futures s) →
        ∃ r, result env t = inr r ∧ is_Some (result_key r)) →
  ∃ s' completed,
    train_wait env s = Done tt s'
    ∧ Forall2 (λ t r, result env t = inr r)
        (wait_done env (train_futures s)) completed
    ∧ completed_train_futures s' = completed
    ∧ (∀ r, r ∈ completed →
            ∃ k, result_key r = Some k
                 ∧ is_Some (train_models_dict s' !! k))
    ∧ (∀ l1 r l2 k,
         completed = l1 ++ r :: l2 →
         result_key r = Some k →
         (∀ r', r' ∈ l2 → result_key r' ≠ Some k) →
         train_models_dict s' !! k = Some (lda_model r))
    ∧ (∀ k, (∀ r, r ∈ completed → result_key r ≠ Some k) →
            train_models_dict s' !! k = train_models_dict s !! k).
Proof.
  intros Hres.
  destruct (comprehension_ok (wait_done env (train_futures s)) (result env) s)
    as (completed & Hjoin & Hall).
  { intros t Ht. destruct (Hres t Ht) as (r & Hr & _). eauto. }
  assert (Hkeys : ∀ r, r ∈ completed → is_Some (result_key r)).
  { intros r Hr. apply list_elem_of_lookup in Hr as [i Hi].
    destruct (Forall2_lookup_r _ _ _ _ _ Hall Hi) as (t & Ht & Htr).
    destruct (Hres t) as (r' & Hr' & Hk);
      [by eapply list_elem_of_lookup_2 |].
    rewrite Htr in Hr'. by injection Hr' as <-. }
  destruct (record_loop_ok completed (set_completed_train completed s) Hkeys)
    as (s' & Hloop & Hd & Hc & _).
  assert (Hlast : ∀ l1 r l2 k,
            completed = l1 ++ r :: l2 →
            result_key r = Some k →
            (∀ r', r' ∈ l2 → result_key r' ≠ Some k) →
            train_models_dict s' !! k = Some (lda_model r)).
  { intros l1 r l2 k -> Hk Hl2.
    rewrite Hd, writes_of_app, apply_writes_app.
    unfold writes_of at 1. simpl. rewrite Hk. simpl.
    fold (writes_of l2).
    rewrite apply_writes_other by by apply writes_of_other.
    by rewrite lookup_insert_eq. }
  exists s', completed. split.
  { unfold train_wait, bind at 1, get. unfold bind at 1. rewrite Hjoin.
    unfold bind, modify. exact Hloop. }
  split; [exact Hall |]. split; [by rewrite Hc |]. split; [| split].
  - intros r Hr. destruct (Hkeys r Hr) as [k Hk]. exists k.
    split; [exact Hk |].
    assert (Hex : ∃ l1 r0 l2, completed = l1 ++ r0 :: l2
                   ∧ result_key r0 = Some k
                   ∧ ∀ r', r' ∈ l2 → result_key r' ≠ Some k).
    { clear -Hr Hk. revert r Hr Hk.
      induction completed as [|r0 l IH]; intros r Hr Hk;
        [by apply elem_of_nil in Hr |].
      destruct (decide (Exists (λ r', result_key r' = Some k) l)) as [Hex|Hno].
      - apply Exists_exists in Hex as (r1 & Hr1 & Hk1).
        destruct (IH r1 Hr1 Hk1) as (l1 & r2 & l2 & -> & Hk2 & Hl2).
        { exists (r0 :: l1), r2, l2. by repeat split. }
      - apply elem_of_cons in Hr as [->|Hr].
        + exists [], r0, l. repeat split; [done |].
          intros r' Hr' Hk'. apply Hno, Exists_exists. eauto.
        + exfalso. apply Hno, Exists_exists. eauto. }
    destruct Hex as (l1 & r0 & l2 & Heq & Hk0 & Hl2).
    rewrite (Hlast l1 r0 l2 k Heq Hk0 Hl2). eauto.
  - exact Hlast.
  - intros k Hk. rewrite Hd. by apply apply_writes_other, writes_of_other.
Qed.

End Recording.

(** ** Test: which handle meets which key *)

Section TestLoop.

Variable env : Env.

#[local] Arguments set_n_topics /.
#[local] Arguments set_alpha_value /.
#[local] Arguments set_beta_value /.
#[local] Arguments set_test_futures /.
#[local] Arguments logging /.
#[local] Arguments record_submit /.

Lemma test_submit_one_effect h s :
  ∃ s', test_submit_one env h s = Done tt s'
        ∧ train_models_dict s' = train_models_dict s
        ∧ num_workers s' = num_workers s
        ∧ submitted s'
          = submitted s
            ++ option_list
                 (test_admitted env (num_workers s) (train_models_dict s) h).
Proof.
  unfold test_submit_one, test_admitted, try_except, bind, modify, get, lift,
    getitem, client_submit, raise, ret.
  destruct (test_result env h) as [e|[[n|] [a|] [b|]]]; simpl;
    try (eexists; split; [reflexivity |]; simpl;
         by rewrite app_nil_r).
  destruct (train_models_dict s !! (n, a, b)) as [m|]; simpl;
    [| eexists; split; [reflexivity |]; simpl; by rewrite app_nil_r].
  destruct (submit env _); simpl;
    eexists; (split; [reflexivity |]); simpl;
    [by rewrite app_nil_r | done].
Qed.

Lemma test_loop_submitted pool : ∀ s,
  ∃ s', for_each pool (test_submit_one env) s = Done tt s'
        ∧ train_models_dict s' = train_models_dict s
        ∧ num_workers s' = num_workers s
        ∧ submitted s'
          = submitted s
            ++ omap (test_admitted env (num_workers s) (train_models_dict s))
                 pool.
Proof.
  induction pool as [|h pool IH]; intros s.
  - exists s. by rewrite app_nil_r.
  - destruct (test_submit_one_effect h s) as (s1 & Hone & Hd & Hw & Hs).
    destruct (IH s1) as (s' & Hrest & Hd' & Hw' & Hs').
    exists s'. rewrite for_each_cons, Hone. split; [exact Hrest |].
    rewrite Hd', Hw', Hs', Hd, Hw, Hs, <- app_assoc.
    repeat split. f_equal. cbn [omap list_omap].
    by destruct (test_admitted env (num_workers s) (train_models_dict s) h).
Qed.

(** Every task that [TEST_SUBMIT] submits carries a handle of the test
    pool, the three values read from that handle's own metadata as its
    key, whatever the iteration's combination, and the artifact the
    index holds under that key. *)
Theorem test_submissions_use_batch_metadata (test_pool : list DataHandle)
    (s : state) :
  ∃ s' new,
    test_submit env test_pool s = Done tt s'
    ∧ submitted s' = submitted s ++ new
    ∧ ∀ t, t ∈ new →
        ∃ h tb m,
          h ∈ test_pool ∧ test_result env h = inr tb
          ∧ tb_n_topics tb = Some (t_n_topics t)
          ∧ tb_alpha_value tb = Some (t_alpha t)
          ∧ tb_beta_value tb = Some (t_beta t)
          ∧ train_models_dict s !! (t_n_topics t, t_alpha t, t_beta t)
            = Some m
          ∧ t_data t = h ∧ t_phase t = test ∧ t_ldamodel t = Some m.
Proof.
  destruct (test_loop_submitted test_pool s) as (s' & Hrun & _ & _ & Hs).
  exists s'; eexists. split; [exact Hrun |]. split; [exact Hs |].
  intros t Ht. apply list_elem_of_omap in Ht as (h & Hh & Hadm).
  unfold test_admitted in Hadm.
  destruct (test_result env h) as [e|tb] eqn:Htb; [discriminate |].
  destruct (tb_n_topics tb) as [n|] eqn:Hn; [| discriminate].
  destruct (tb_alpha_value tb) as [a|] eqn:Ha; [| discriminate].
  destruct (tb_beta_value tb) as [b|] eqn:Hb; [| discriminate].
  cbn [mbind option_bind] in Hadm.
  destruct (train_models_dict s !! (n, a, b)) as [m|] eqn:Hm;
    [| discriminate].
  cbn [mbind option_bind] in Hadm.
  destruct (submit env _); [discriminate |]. injection Hadm as <-.
  exists h, tb, m. simpl. by repeat split.
Qed.

End TestLoop.

(** ** Frames: what the phases before the visualisation leave alone *)

Section Frame.

Variable cfg : Config.
Variable env : Env.
Variables train_pool validation_pool test_pool : list DataHandle.
Variable random_combinations : list Combination.

Variable R : state → state → Prop.
Hypothesis R_refl : ∀ s, R s s.
Hypothesis R_trans : ∀ s1 s2 s3, R s1 s2 → R s2 s3 → R s1 s3.

(** One hypothesis for each elementary change of the state. *)
Hypothesis F_logging : ∀ l m s, R s (logging l m s).
Hypothesis F_sleep : ∀ d s, R s (sleep d s).
Hypothesis F_tick_poll : ∀ s, R s (tick_poll s).
Hypothesis F_record_submit : ∀ t s, R s (record_submit t s).
Hypothesis F_set_n_topics : ∀ n s, R s (set_n_topics n s).
Hypothesis F_set_alpha_value : ∀ a s, R s (set_alpha_value a s).
Hypothesis F_set_beta_value : ∀ b s, R s (set_beta_value b s).
Hypothesis F_set_num_workers : ∀ w s, R s (set_num_workers w s).
Hypothesis F_append_train :
  ∀ t s, R s (set_train_futures (train_futures s ++ [t]) s).
Hypothesis F_append_validation :
  ∀ t s, R s (set_validation_futures (validation_futures s ++ [t]) s).
Hypothesis F_append_test :
  ∀ t s, R s (set_test_futures (test_futures s ++ [t]) s).
Hypothesis F_set_completed_train : ∀ l s, R s (set_completed_train l s).
Hypothesis F_set_completed_validation :
  ∀ l s, R s (set_completed_validation l s).
Hypothesis F_set_completed_test : ∀ l s, R s (set_completed_test l s).
Hypothesis F_assign :
  ∀ m s, R s (set_dict (<[(n_topics s, alpha_value s, beta_value s) := m]>
                          (train_models_dict s)) s).

Lemma frame_poll_workers : preserves R (poll_workers env).
Proof. intros s. apply F_tick_poll. Qed.

Lemma frame_client_submit t : preserves R (client_submit env t).
Proof.
  intros s. unfold client_submit.
  destruct (submit env t); [apply R_refl | apply F_record_submit].
Qed.

Local Ltac frame :=
  preserves_auto R_refl R_trans;
  first [ apply frame_poll_workers | apply frame_client_submit
        | apply F_logging | apply F_sleep | apply F_set_n_topics
        | apply F_set_alpha_value | apply F_set_beta_value
        | apply F_set_num_workers | apply F_append_train
        | apply F_append_validation | apply F_append_test
        | apply F_set_completed_train | apply F_set_completed_validation
        | apply F_set_completed_test | apply F_assign | idtac ].

Lemma frame_throttle_while remaining ty a :
  preserves R (throttle_while cfg env remaining ty a).
Proof.
  revert a. induction remaining as [|r IH]; intros a; simpl; frame;
    try apply IH.
Qed.

Lemma frame_throttle ty : preserves R (throttle cfg env ty).
Proof. unfold throttle. frame. apply frame_throttle_while. Qed.

Lemma frame_train_submit : preserves R (train_submit env train_pool).
Proof. unfold train_submit, train_submit_one. frame. Qed.

Lemma frame_train_wait : preserves R (train_wait env).
Proof. unfold train_wait, record_train_result. frame. Qed.

Lemma frame_validation_submit :
  preserves R (validation_submit env validation_pool random_combinations).
Proof. unfold validation_submit, validation_submit_one. frame. Qed.

Lemma frame_validation_wait : preserves R (validation_wait env).
Proof. unfold validation_wait. frame. Qed.

Lemma frame_test_submit : preserves R (test_submit env test_pool).
Proof. unfold test_submit, test_submit_one. frame. Qed.

Lemma frame_test_wait : preserves R (test_wait env).
Proof. unfold test_wait. frame. Qed.

End Frame.

(** ** How an iteration ends, and the recycle block *)

Lemma retains_refl s : retains s s.
Proof. by repeat split. Qed.

Lemma retains_trans s1 s2 s3 : retains s1 s2 → retains s2 s3 → retains s1 s3.
Proof.
  intros (Hp & Hr & Ht & Hv & He) (Hp' & Hr' & Ht' & Hv' & He').
  repeat split; try congruence; by etrans.
Qed.

Ltac retains_side :=
  first
    [ exact retains_refl
    | exact retains_trans
    | intros; repeat split; simpl; try done; by apply prefix_app_r ].

Lemma outcome_bind {A} (s0 : state) (m : M A) (k : A → M flow) :
  preserves retains m →
  (∀ a s2, retains s0 s2 → outcome_ok s0 (k a s2)) →
  ∀ s1, retains s0 s1 → outcome_ok s0 (bind m k s1).
Proof.
  intros Hm Hk s1 Hs1. unfold bind. specialize (Hm s1).
  destruct (m s1) as [a s2|e s2]; simpl in Hm.
  - apply Hk. by eapply retains_trans.
  - simpl. by eapply retains_trans.
Qed.

Lemma visualize_outcome env s0 s1 :
  retains s0 s1 → outcome_ok s0 (visualize_and_recycle env s1).
Proof.
  intros (Hp & Hr & Ht & Hv & He).
  unfold visualize_and_recycle, bind, poll_workers, modify, get. simpl.
  destruct (process_visualizations env (completed_train_futures s1))
    as [[]|]; simpl; try by repeat split.
  unfold recycle, bind, modify, ret. simpl.
  repeat split; simpl; congruence.
Qed.

Lemma iteration_outcome (cfg : Config) (env : Env)
    (train_pool validation_pool test_pool : list DataHandle)
    (random_combinations : list Combination) (c : Combination) (s : state) :
  outcome_ok s
    (iteration cfg env train_pool validation_pool test_pool
       random_combinations c s).
Proof.
  destruct c as [[[n a] b] ty]. unfold iteration, after_throttle.
  pose proof (retains_refl s) as Hs. revert Hs. generalize s at 2 4 as s1.
  do 3 (apply outcome_bind; [apply preserves_modify; retains_side |];
        intros _).
  apply outcome_bind; [apply frame_throttle; retains_side | intros _].
  apply outcome_bind; [apply frame_train_submit; retains_side | intros _].
  apply outcome_bind; [apply frame_train_wait; retains_side | intros _].
  apply outcome_bind; [apply frame_validation_submit; retains_side | intros _].
  apply outcome_bind; [apply frame_validation_wait; retains_side | intros _].
  apply outcome_bind; [apply frame_test_submit; retains_side | intros _].
  apply outcome_bind; [apply frame_test_wait; retains_side | intros _].
  intros s2. apply visualize_outcome.
Qed.

(** An iteration that ends in the recycle block has advanced the
    progress bar by one, asked for one rebalance and emptied the six
    lists.  One that ends by the [continue] or the [break] of the
    visualisation, or by an exception, has done none of this: the
    progress bar and the rebalance count are as before and the future
    lists still hold everything they held, so that the next
    [TRAIN_WAIT] joins those futures again.  Over a sweep the progress
    bar therefore advances once for each iteration that reached the
    recycle block, at most [len(random_combinations)] times, and as
    often as a rebalance is requested. *)
Theorem iteration_recycles_or_retains (cfg : Config) (env : Env)
    (train_pool validation_pool test_pool : list DataHandle)
    (random_combinations : list Combination) (s : state) :
  (∀ c s,
     match iteration cfg env train_pool validation_pool test_pool
             random_combinations c s with
     | Done Recycled s' => recycled s s'
     | Done _ s' | Raise _ s' => retains s s'
     end)
  ∧ ∃ n,
      (n <= length random_combinations)%nat
      ∧ progress
          (final_state
             (sweep cfg env train_pool validation_pool test_pool
                random_combinations s))
        = (progress s + n)%nat
      ∧ rebalances
          (final_state
             (sweep cfg env train_pool validation_pool test_pool
                random_combinations s))
        = (rebalances s + n)%nat.
Proof.
  split.
  { intros c s0.
    exact (iteration_outcome cfg env train_pool validation_pool test_pool
             random_combinations c s0). }
  unfold sweep. generalize random_combinations at 1 3 5 as todo.
  intros todo. revert s.
  induction todo as [|c todo IH]; intros s.
  - exists 0%nat. simpl. repeat split; lia.
  - cbn [sweep_from]. unfold bind.
    pose proof (iteration_outcome cfg env train_pool validation_pool
                  test_pool random_combinations c s) as Hout.
    destruct (iteration cfg env train_pool validation_pool test_pool
                random_combinations c s) as [[] s1|e s1]; simpl in Hout.
    + destruct Hout as (Hp & Hr & _).
      destruct (IH s1) as (n & Hn & Hp' & Hr').
      exists (S n). rewrite Hp', Hr', Hp, Hr. simpl. repeat split; lia.
    + destruct Hout as (Hp & Hr & _).
      destruct (IH s1) as (n & Hn & Hp' & Hr').
      exists n. rewrite Hp', Hr', Hp, Hr. simpl. repeat split; lia.
    + destruct Hout as (Hp & Hr & _).
      exists 0%nat. simpl. rewrite Hp, Hr. repeat split; lia.
    + destruct Hout as (Hp & Hr & _).
      exists 0%nat. simpl. rewrite Hp, Hr. repeat split; lia.
Qed.

(** ** How many tasks are submitted *)

Lemma submits_of_frame {A} (m : M A) :
  preserves (λ s s', submitted s' = submitted s) m → submits_at_most 0 m.
Proof.
  intros H s. exists []. rewrite app_nil_r. split; [apply H | done].
Qed.

Lemma submits_weaken {A} (m : M A) a b :
  submits_at_most a m → (a <= b)%nat → submits_at_most b m.
Proof.
  intros H Hab s. destruct (H s) as (new & Hs & Hn).
  exists new. split; [done | lia].
Qed.

Lemma submits_bind {A B} (m : M A) (k : A → M B) a b :
  submits_at_most a m → (∀ x, submits_at_most b (k x)) →
  submits_at_most (a + b) (bind m k).
Proof.
  intros Hm Hk s. unfold bind. destruct (Hm s) as (new & Hs & Hn).
  destruct (m s) as [x s1|e s1]; simpl in *.
  - destruct (Hk x s1) as (new' & Hs' & Hn').
    exists (new ++ new'). rewrite Hs', Hs, <- app_assoc.
    split; [done |]. rewrite length_app. lia.
  - exists new. split; [done | lia].
Qed.

Lemma submits_for_each {A} (l : list A) body :
  (∀ x, submits_at_most 1 (body x)) →
  submits_at_most (length l) (for_each l body).
Proof.
  intros Hbody. induction l as [|x l IH]; simpl.
  - intros s. exists []. by rewrite app_nil_r.
  - apply (submits_bind _ _ 1 (length l)); [apply Hbody | intros _; apply IH].
Qed.

Lemma validation_batches_length pool combos :
  (length (validation_batches pool combos) <= length pool)%nat.
Proof.
  unfold validation_batches. rewrite length_fmap, length_zip_with. lia.
Qed.

Ltac same_submitted_side :=
  first
    [ exact (λ s : state, eq_refl (submitted s))
    | (intros s1 s2 s3 H12 H23; exact (eq_trans H23 H12))
    | (intros; reflexivity) ].

Section Counting.

Variable cfg : Config.
Variable env : Env.
Variables train_pool validation_pool test_pool : list DataHandle.
Variable random_combinations : list Combination.

Lemma train_submit_one_at_most h :
  submits_at_most 1 (train_submit_one env h).
Proof.
  intros s. destruct (submit env (current_task s h)) as [e|] eqn:Hsub.
  - rewrite (train_submit_one_raise env h s e Hsub).
    exists []. rewrite app_nil_r. split; [done | simpl; lia].
  - rewrite (train_submit_one_ok env h s Hsub).
    exists [current_task s h]. by split.
Qed.

Lemma validation_submit_one_at_most batch :
  submits_at_most 1 (validation_submit_one env batch).
Proof.
  intros s.
  destruct (validation_loop_submitted env [batch] s)
    as (s' & Hrun & _ & _ & Hs).
  rewrite for_each_cons in Hrun.
  destruct (validation_submit_one env batch s) as [[] s1|e s1];
    [| discriminate].
  simpl in Hrun. injection Hrun as ->.
  eexists. split; [exact Hs |]. simpl.
  destruct (admitted _ _ _ _); simpl; lia.
Qed.

Lemma test_submit_one_at_most h : submits_at_most 1 (test_submit_one env h).
Proof.
  intros s. destruct (test_submit_one_effect env h s)
    as (s' & -> & _ & _ & Hs).
  eexists. split; [exact Hs |].
  destruct (test_admitted _ _ _ _); simpl; lia.
Qed.

Lemma train_submit_at_most :
  submits_at_most (length train_pool) (train_submit env train_pool).
Proof.
  unfold train_submit.
  apply (submits_bind _ _ 0 (length train_pool)).
  { apply submits_of_frame. intros s. reflexivity. }
  intros workers. apply (submits_bind _ _ 0 (length train_pool)).
  { apply submits_of_frame. intros s. reflexivity. }
  intros _. apply submits_for_each, train_submit_one_at_most.
Qed.

Lemma iteration_at_most c :
  submits_at_most
    (length train_pool + length validation_pool + length test_pool)
    (iteration cfg env train_pool validation_pool test_pool
       random_combinations c).
Proof.
  destruct c as [[[n a] b] ty]. unfold iteration, after_throttle.
  eapply submits_weaken.
  - do 3 (apply (submits_bind _ _ 0);
          [apply submits_of_frame; intros s; reflexivity | intros _]).
    apply (submits_bind _ _ 0).
    { apply submits_of_frame, frame_throttle; same_submitted_side. }
    intros _. apply submits_bind; [apply train_submit_at_most | intros _].
    apply (submits_bind _ _ 0).
    { apply submits_of_frame, frame_train_wait; same_submitted_side. }
    intros _. apply submits_bind.
    { apply submits_for_each, validation_submit_one_at_most. }
    intros _. apply (submits_bind _ _ 0).
    { apply submits_of_frame, frame_validation_wait; same_submitted_side. }
    intros _. apply submits_bind.
    { apply submits_for_each, test_submit_one_at_most. }
    intros _. apply (submits_bind _ _ 0).
    { apply submits_of_frame, frame_test_wait; same_submitted_side. }
    intros _. apply (submits_of_frame (visualize_and_recycle env)).
    intros s. unfold visualize_and_recycle, bind, poll_workers, modify, get.
    simpl. destruct (process_visualizations env _) as [[]|]; reflexivity.
  - pose proof (validation_batches_length validation_pool
                  random_combinations).
    unfold validation_submit. lia.
Qed.

(** A sweep makes at most [TOTAL_COMBINATIONS] successful submissions,
    the total the progress bar is created with: an iteration submits
    at most one task for each training handle, one for each validation
    handle and one for each test handle. *)
Theorem sweep_submits_at_most_total (s : state) :
  ∃ new,
    submitted
      (final_state
         (sweep cfg env train_pool validation_pool test_pool
            random_combinations s))
    = submitted s ++ new
    ∧ (length new
       <= TOTAL_COMBINATIONS random_combinations train_pool
            validation_pool test_pool)%nat.
Proof.
  unfold sweep, TOTAL_COMBINATIONS.
  generalize random_combinations at 2 3 as todo.
  intros todo. revert s.
  change (submits_at_most
            (length todo
             * (length train_pool + length validation_pool
                + length test_pool))
            (sweep_from cfg env train_pool validation_pool test_pool
               random_combinations todo)).
  induction todo as [|c todo IH]; simpl.
  - intros s. exists []. by rewrite app_nil_r.
  - apply submits_bind; [apply iteration_at_most |].
    intros []; try exact IH.
    apply (submits_weaken _ 0); [| lia].
    intros s. exists []. by rewrite app_nil_r.
Qed.

End Counting.

(** ** Where an iteration can raise *)




Section Completion.

Variable cfg : Config.
Variable env : Env.
Variables train_pool validation_pool test_pool : list DataHandle.
Variable random_combinations : list Combination.

Hypothesis train_accepted : ∀ t, t_phase t = train → submit env t = None.
Hypothesis resolves :
  ∀ t, ∃ r, result env t = inr r ∧ is_Some (result_key r).






End Completion.

(** ** Setting up the grid: errors and counts *)

Lemma range_length start stop step l :
  Py.range start stop step = inr l →
  step ≠ 0 ∧ length l = Z.to_nat (Py.range_len start stop step) ∧ NoDup l.
Proof.
  unfold Py.range. destruct (Z.eqb_spec step 0) as [|Hstep]; [discriminate |].
  intros [= <-]. split; [done |]. split.
  - by rewrite length_fmap, length_seq.
  - apply NoDup_fmap_2_strong; [| apply NoDup_seq].
    intros i j _ _ Hij. nia.
Qed.



(** *** Drawing without replacement *)

Section Distinct.

Context {A : Type}.
Variable randbelow : nat → nat → nat.

Lemma sample_pool_step (pool : list A) (j : nat) x y :
  pool !! j = Some x → last pool = Some y →
  x :: take (length pool - 1) (<[j := y]> pool) ≡ₚ pool.
Proof.
  intros Hx Hy. apply last_Some in Hy as [l ->].
  rewrite length_app. simpl.
  replace (length l + 1 - 1)%nat with (length l) by lia.
  destruct (decide (j < length l)%nat) as [Hj|Hj].
  - rewrite lookup_app_l in Hx by done.
    rewrite insert_app_l by done.
    rewrite take_app_length' by by rewrite length_insert.
    rewrite insert_take_drop by done.
    rewrite <- (take_drop_middle l j x Hx) at 3.
    rewrite <- !app_assoc. simpl.
    rewrite <- !Permutation_middle. by rewrite app_nil_r.
  - assert (j = length l) as ->.
    { apply lookup_lt_Some in Hx. rewrite length_app in Hx. simpl in Hx. lia. }
    rewrite list_lookup_middle in Hx by done. injection Hx as <-.
    rewrite list_insert_id by by apply list_lookup_middle.
    rewrite take_app_length. by rewrite Permutation_cons_append.
Qed.

(** The draw and what stays in the pool make up the population. *)
Lemma sample_pool_split (k : nat) : ∀ i (pool : list A),
  ∃ rest, Py.sample_pool randbelow i pool k ++ rest ≡ₚ pool.
Proof.
  induction k as [|k IH]; intros i pool; cbn [Py.sample_pool].
  - by exists pool.
  - destruct (pool !! _) as [x|] eqn:Hx; [| by exists pool].
    destruct (last pool) as [y|] eqn:Hy; [| by exists pool].
    destruct (IH (S i) (take (length pool - 1)
                          (<[(randbelow i (length pool) `mod` length pool)%nat
                             := y]> pool)))
      as [rest Hrest].
    exists rest. simpl. rewrite Hrest. by apply sample_pool_step.
Qed.

Lemma sample_pool_NoDup (k : nat) i (pool : list A) :
  NoDup pool → NoDup (Py.sample_pool randbelow i pool k).
Proof.
  intros Hnd. destruct (sample_pool_split k i pool) as [rest Hrest].
  rewrite <- Hrest in Hnd. by apply NoDup_app in Hnd as [? _].
Qed.

End Distinct.

Lemma bind_length_const {A B} (l : list A) (f : A → list B) (n : nat) :
  (∀ x, length (f x) = n) → length (l ≫= f) = (length l * n)%nat.
Proof.
  intros Hf. induction l as [|x l IH]; [done |].
  cbn [mbind list_bind]. rewrite length_app, Hf.
  change (length (l ≫= f) = (length l * n)%nat) in IH. simpl. lia.
Qed.

Lemma product_length ns alphas betas phs :
  length (Py.product ns alphas betas phs)
  = (length ns * (length alphas * (length betas * length phs)))%nat.
Proof.
  unfold Py.product.
  apply bind_length_const. intros n.
  apply bind_length_const. intros a.
  apply bind_length_const. intros b.
  rewrite (bind_length_const phs _ 1); [lia | done].
Qed.

Lemma product_NoDup ns alphas betas phs :
  NoDup ns → NoDup alphas → NoDup betas → NoDup phs →
  NoDup (Py.product ns alphas betas phs).
Proof.
  intros Hns Has Hbs Hps. unfold Py.product.
  apply NoDup_bind; [| | done].
  { intros n1 n2 c _ _ H1 H2.
    apply list_elem_of_bind in H1 as (a1 & H1 & _).
    apply list_elem_of_bind in H1 as (b1 & H1 & _).
    apply list_elem_of_bind in H1 as (p1 & H1 & _).
    apply list_elem_of_bind in H2 as (a2 & H2 & _).
    apply list_elem_of_bind in H2 as (b2 & H2 & _).
    apply list_elem_of_bind in H2 as (p2 & H2 & _).
    apply list_elem_of_singleton in H1, H2. congruence. }
  intros n _. apply NoDup_bind; [| | done].
  { intros a1 a2 c _ _ H1 H2.
    apply list_elem_of_bind in H1 as (b1 & H1 & _).
    apply list_elem_of_bind in H1 as (p1 & H1 & _).
    apply list_elem_of_bind in H2 as (b2 & H2 & _).
    apply list_elem_of_bind in H2 as (p2 & H2 & _).
    apply list_elem_of_singleton in H1, H2. congruence. }
  intros a _. apply NoDup_bind; [| | done].
  { intros b1 b2 c _ _ H1 H2.
    apply list_elem_of_bind in H1 as (p1 & H1 & _).
    apply list_elem_of_bind in H2 as (p2 & H2 & _).
    apply list_elem_of_singleton in H1, H2. congruence. }
  intros b _. apply NoDup_bind; [| | done].
  { intros p1 p2 c _ _ H1 H2.
    apply list_elem_of_singleton in H1, H2. congruence. }
  intros p _. apply NoDup_singleton.
Qed.

Lemma axes_NoDup : NoDup alpha_values ∧ NoDup beta_values ∧ NoDup phases.
Proof.
  split; [| split].
  - apply (bool_decide_unpack (NoDup alpha_values)). by vm_compute.
  - apply (bool_decide_unpack (NoDup beta_values)). by vm_compute.
  - apply (bool_decide_unpack (NoDup phases)). by vm_compute.
Qed.

(** Whenever the grid is built: the full list has
    [90 * num_topics] pairwise distinct combinations
    ([6 * 5 * 3] for each topic count); the sampled combinations are
    pairwise distinct, [sample_size] of them; and the undrawn ones are
    pairwise distinct and as many as the two printed counts say,
    [len(combinations) - len(random_combinations)]. *)
Theorem sample_is_without_replacement cfg randbelow g :
  make_grid cfg randbelow = inr g →
  NoDup (combinations g)
  ∧ length (combinations g) = (90 * num_topics g)%nat
  ∧ NoDup (random_combinations g)
  ∧ Z.of_nat (length (random_combinations g))
    = sample_size (length (combinations g))
  ∧ NoDup (undrawn_combinations g)
  ∧ length (undrawn_combinations g)
    = (length (combinations g) - length (random_combinations g))%nat.
Proof.
  intros Hg.
  destruct (make_grid_inv cfg randbelow g Hg)
    as (topic_range & i & Hrange & Hnum & _ & _ & Hcombos & Hdrawn & Hundrawn).
  apply range_length in Hrange as (_ & _ & Hnd).
  destruct axes_NoDup as (Ha & Hb & Hp).
  assert (Hall : NoDup (combinations g))
    by (rewrite Hcombos; by apply product_NoDup).
  assert (Hsample : NoDup (random_combinations g))
    by (rewrite Hdrawn; by apply sample_pool_NoDup).
  pose proof (sample_size_of_range sample_fraction (length (combinations g)))
    as Hr. fold (sample_size (length (combinations g))) in Hr.
  split; [exact Hall |]. split.
  { rewrite Hcombos, product_length, Hnum.
    change (length alpha_values) with 6%nat.
    change (length beta_values) with 5%nat.
    change (length phases) with 3%nat. lia. }
  split; [exact Hsample |]. split.
  { rewrite Hdrawn at 1. rewrite sample_pool_length by lia. lia. }
  split.
  { rewrite Hundrawn. apply NoDup_elements. }
  rewrite Hundrawn. unfold undrawn.
  change (length (elements ?X)) with (size X).
  rewrite size_difference.
  - by rewrite !size_list_to_set.
  - intros c. rewrite !elem_of_list_to_set, Hdrawn.
    apply sample_pool_subset.
Qed.

(** ** The data partitioner *)

Lemma place_batches_from scatter batches : ∀ p,
  let p' := foldl (place_batch scatter) p batches in
  scattered_train_data_futures p'
    = scattered_train_data_futures p
      ++ omap (placed_in scatter "train") batches
  ∧ scattered_validation_data_futures p'
    = scattered_validation_data_futures p
      ++ omap (placed_in scatter "validation") batches
  ∧ scattered_test_data_futures p'
    = scattered_test_data_futures p ++ omap (placed_in scatter "test") batches
  ∧ placement_errors p'
    = placement_errors p ++ omap (failed_in scatter) batches.
Proof.
  induction batches as [|b batches IH]; intros p.
  - simpl. by rewrite !app_nil_r.
  - cbn [foldl]. destruct (IH (place_batch scatter p b)) as (Ht & Hv & He & Hf).
    cbv zeta. rewrite Ht, Hv, He, Hf. clear IH Ht Hv He Hf.
    cbn [omap list_omap]. unfold place_batch, placed_in, failed_in.
    destruct (bool_decide (bi_type b = "train")) eqn:Htrain.
    { apply bool_decide_eq_true in Htrain. rewrite Htrain.
      rewrite (bool_decide_eq_false_2 ("train" = "validation")) by done.
      rewrite (bool_decide_eq_false_2 ("train" = "test")) by done.
      destruct (scatter (bi_data b)); simpl;
        by rewrite <- ?app_assoc. }
    destruct (bool_decide (bi_type b = "validation")) eqn:Hval.
    { apply bool_decide_eq_true in Hval. rewrite Hval.
      rewrite (bool_decide_eq_false_2 ("validation" = "test")) by done.
      destruct (scatter (bi_data b)); simpl;
        by rewrite <- ?app_assoc. }
    destruct (bool_decide (bi_type b = "test")) eqn:Htest.
    { destruct (scatter (bi_data b)); simpl;
        by rewrite <- ?app_assoc. }
    by destruct (scatter (bi_data b)).
Qed.

Lemma placement_one scatter b :
  (length (option_list (placed_in scatter "train" b))
   + length (option_list (placed_in scatter "validation" b))
   + length (option_list (placed_in scatter "test" b))
   + length (option_list (failed_in scatter b)))%nat
  = if known_type b then 1%nat else 0%nat.
Proof.
  unfold placed_in, failed_in, known_type.
  destruct (decide (bi_type b = "train")) as [Htrain|Htrain].
  { rewrite Htrain.
    rewrite (bool_decide_eq_true_2 ("train" = "train")) by done.
    rewrite (bool_decide_eq_false_2 ("train" = "validation")) by done.
    rewrite (bool_decide_eq_false_2 ("train" = "test")) by done.
    by destruct (scatter (bi_data b)). }
  rewrite (bool_decide_eq_false_2 (bi_type b = "train")) by done.
  destruct (decide (bi_type b = "validation")) as [Hval|Hval].
  { rewrite Hval.
    rewrite (bool_decide_eq_true_2 ("validation" = "validation")) by done.
    rewrite (bool_decide_eq_false_2 ("validation" = "test")) by done.
    by destruct (scatter (bi_data b)). }
  rewrite (bool_decide_eq_false_2 (bi_type b = "validation")) by done.
  destruct (decide (bi_type b = "test")) as [Htest|Htest].
  { rewrite Htest.
    rewrite (bool_decide_eq_true_2 ("test" = "test")) by done.
    by destruct (scatter (bi_data b)). }
  rewrite (bool_decide_eq_false_2 (bi_type b = "test")) by done.
  by destruct (scatter (bi_data b)).
Qed.

Lemma omap_cons_length {A B} (f : A → option B) x l :
  length (omap f (x :: l))
  = (length (option_list (f x)) + length (omap f l))%nat.
Proof. cbn [omap list_omap]. by destruct (f x). Qed.

Lemma placement_count scatter batches :
  (length (omap (placed_in scatter "train") batches)
   + length (omap (placed_in scatter "validation") batches)
   + length (omap (placed_in scatter "test") batches)
   + length (omap (failed_in scatter) batches))%nat
  = length (filter (λ b, known_type b) batches).
Proof.
  induction batches as [|b batches IH]; [done |].
  rewrite !omap_cons_length, filter_cons.
  pose proof (placement_one scatter b) as Hone.
  destruct (decide (known_type b)) as [Hk|Hk].
  - apply Is_true_true in Hk. rewrite Hk in Hone. simpl. lia.
  - apply Is_true_false in Hk. rewrite Hk in Hone. lia.
Qed.

(** The partitioner never raises and loses no batch silently.  Each
    pool holds, in arrival order, the handles of the batches of its
    type whose placement succeeded; each failed placement leaves one
    error record with the batch's type and does not disturb the
    batches after it; a batch of any other type is neither placed nor
    recorded.  So the three pools and the error records together
    account for every batch of a known type. *)
Theorem partition_accounts_for_batches (scatter : nat → exn + DataHandle)
    (batches : list BatchInfo) :
  let p := place_batches scatter batches in
  scattered_train_data_futures p = omap (placed_in scatter "train") batches
  ∧ scattered_validation_data_futures p
    = omap (placed_in scatter "validation") batches
  ∧ scattered_test_data_futures p = omap (placed_in scatter "test") batches
  ∧ placement_errors p = omap (failed_in scatter) batches
  ∧ (length (scattered_train_data_futures p)
     + length (scattered_validation_data_futures p)
     + length (scattered_test_data_futures p)
     + length (placement_errors p))%nat
    = length (filter (λ b, known_type b) batches)
  ∧ (length (scattered_train_data_futures p)
     + length (scattered_validation_data_futures p)
     + length (scattered_test_data_futures p) <= length batches)%nat.
Proof.
  destruct (place_batches_from scatter batches (mkPlacement [] [] [] []))
    as (Ht & Hv & He & Hf).
  cbv zeta in *. fold (place_batches scatter batches) in Ht, Hv, He, Hf.
  simpl in Ht, Hv, He, Hf.
  pose proof (placement_count scatter batches) as Hcount.
  pose proof (length_filter (λ b, known_type b) batches) as Hle.
  rewrite Ht, Hv, He, Hf. repeat split; [exact Hcount | lia].
Qed.

(** ** The argument checks *)

Lemma first_missing_spec required args :
  match first_missing required args with
  | None => ∀ name msg, (name, msg) ∈ required → is_Some (args name)
  | Some msg =>
      ∃ pre name post,
        required = pre ++ (name, msg) :: post
        ∧ args name = None
        ∧ ∀ name' msg', (name', msg') ∈ pre → is_Some (args name')
  end.
Proof.
  induction required as [|[name msg] required IH]; simpl.
  - intros name msg H. by apply elem_of_nil in H.
  - destruct (args name) as [v|] eqn:Hv.
    + destruct (first_missing required args) as [m|].
      * destruct IH as (pre & n & post & -> & Hn & Hpre).
        exists ((name, msg) :: pre), n, post. repeat split; [done |].
        intros n' m' [[= -> ->]|Hin]%elem_of_cons; [by rewrite Hv | eauto].
      * intros n' m' [[= -> ->]|Hin]%elem_of_cons; [by rewrite Hv | eauto].
    + exists [], name, required. repeat split; [done |].
      intros n' m' H. by apply elem_of_nil in H.
Qed.

(** The run goes past the argument checks exactly when each of the ten
    required options has a value and the corpus label is empty or
    matches the pattern: an empty label is never looked at.  A label
    that does not match ends the run with the label message whatever
    else is missing; otherwise the run ends with the message of the
    first option, in the order of [required_args], that has no
    value. *)
Theorem argument_checks_pass (args : Args) :
  (argument_checks args = None ↔
   (∀ name msg, (name, msg) ∈ required_args → is_Some (args name))
   ∧ ∃ label, args "corpus_label" = Some label
              ∧ (label = "" ∨ Re.matches corpus_label_re label = true))
  ∧ (∀ label, args "corpus_label" = Some label → label ≠ "" →
              Re.matches corpus_label_re label = false →
              argument_checks args = Some invalid_corpus_label)
  ∧ (∀ msg, argument_checks args = Some msg → msg ≠ invalid_corpus_label →
            ∃ pre name post,
              required_args = pre ++ (name, msg) :: post
              ∧ args name = None
              ∧ ∀ name' msg', (name', msg') ∈ pre → is_Some (args name')).
Proof.
  pose proof (first_missing_spec required_args args) as Hspec.
  unfold argument_checks, validate_corpus_label.
  split; [| split].
  - destruct (args "corpus_label") as [label|] eqn:Hlabel.
    + destruct (decide (label = "")) as [->|Hne].
      * rewrite bool_decide_eq_false_2 by (intros H; by apply H).
        destruct (first_missing required_args args) as [m|].
        -- split; [done |]. intros [Hall _].
           destruct Hspec as (pre & n & post & Heq & Hn & _).
           destruct (Hall n m) as [v Hv]; [| congruence].
           rewrite Heq. apply elem_of_app. right. left.
        -- split; [| done]. intros _. split; [exact Hspec |]. eauto.
      * rewrite bool_decide_eq_true_2 by done.
        destruct (Re.matches corpus_label_re label) eqn:Hm; cbn [negb].
        -- destruct (first_missing required_args args) as [m|].
           ++ split; [done |]. intros [Hall _].
              destruct Hspec as (pre & n & post & Heq & Hn & _).
              destruct (Hall n m) as [v Hv]; [| congruence].
              rewrite Heq. apply elem_of_app. right. left.
           ++ split; [| done]. intros _. split; [exact Hspec |]. eauto.
        -- split; [done |]. intros [_ (l & [= <-] & [?|?])]; congruence.
    + destruct (first_missing required_args args) as [m|].
      * split; [done |]. intros [_ (l & ? & _)]. done.
      * split; [| done]. intros _.
        destruct (Hspec "corpus_label"
                    "No value was entered for corpus_label") as [v Hv];
          [| congruence].
        unfold required_args. do 3 right. left.
  - intros label -> Hne Hm. rewrite bool_decide_eq_true_2 by done.
    by rewrite Hm.
  - intros msg Hmsg Hnot.
    destruct (args "corpus_label") as [label|].
    + destruct (bool_decide (label ≠ "")).
      * destruct (Re.matches corpus_label_re label); cbn [negb] in Hmsg.
        -- rewrite Hmsg in Hspec. exact Hspec.
        -- congruence.
      * rewrite Hmsg in Hspec. exact Hspec.
    + rewrite Hmsg in Hspec. exact Hspec.
Qed.

(** ** The pattern of the corpus label *)

Lemma matches_spec r label :
  Re.matches r label = true ↔
  ∃ t, t ∈ Re.run r (String.list_ascii_of_string label).
Proof.
  unfold Re.matches.
  destruct (Re.run r (String.list_ascii_of_string label)) as [|t ts].
  - split; [done |]. intros [t Ht]. by apply elem_of_nil in Ht.
  - split; [| done]. intros _. exists t. left.
Qed.

Lemma run_class ranges s t :
  t ∈ Re.run (Re.Class ranges) s ↔
  ∃ c, s = c :: t ∧ Re.in_class ranges c = true.
Proof.
  simpl. destruct s as [|c s].
  - split; [intros H; by apply elem_of_nil in H | by intros (c & ? & _)].
  - destruct (Re.in_class ranges c) eqn:Hc.
    + rewrite list_elem_of_singleton. split.
      * intros ->. by exists c.
      * by intros (c' & [= <- <-] & _).
    + split; [intros H; by apply elem_of_nil in H |].
      intros (c' & [= <- <-] & ?). congruence.
Qed.

Lemma repeat_class ranges (n : nat) : ∀ s t,
  t ∈ Re.repeat_run (Re.run (Re.Class ranges)) 0 n s ↔
  ∃ body, s = body ++ t
          ∧ Forall (λ c, Re.in_class ranges c = true) body
          ∧ (length body <= n)%nat.
Proof.
  induction n as [|n IH]; intros s t; cbn [Re.repeat_run].
  - rewrite list_elem_of_singleton. split.
    + intros ->. by exists [].
    + intros (body & -> & _ & Hlen). destruct body; [done | simpl in Hlen; lia].
  - rewrite elem_of_app, list_elem_of_singleton, list_elem_of_bind. split.
    + intros [->|(s' & Ht & Hs')].
      * exists []. repeat split; [done | simpl; lia].
      * apply run_class in Hs' as (c & -> & Hc).
        apply IH in Ht as (body & -> & Hall & Hlen).
        exists (c :: body). repeat split; [by constructor | simpl; lia].
    + intros (body & -> & Hall & Hlen). destruct body as [|c body].
      * by left.
      * right. apply Forall_cons in Hall as [Hc Hall].
        exists (body ++ t). split.
        -- apply IH. exists body. repeat split; [done | simpl in Hlen; lia].
        -- apply run_class. by exists c.
Qed.

(** [re.match] accepts a corpus label exactly when it is a lower-case
    letter followed by at most 62 lower-case letters, digits or
    underscores, or such a label followed by one newline (the [$] of
    the pattern also matches before a final newline).  An accepted
    label has therefore between 1 and 64 characters. *)
Theorem corpus_label_accepted (label : string) :
  let l := String.list_ascii_of_string label in
  (Re.matches corpus_label_re label = true ↔
   ∃ c body,
     (l = c :: body ∨ l = c :: body ++ [Re.newline])
     ∧ Re.in_class lower c = true
     ∧ Forall (λ c, Re.in_class word c = true) body
     ∧ (length body <= 62)%nat)
  ∧ (Re.matches corpus_label_re label = true → (1 <= length l <= 64)%nat).
Proof.
  intros l.
  assert (Hiff : Re.matches corpus_label_re label = true ↔
            ∃ c body,
              (l = c :: body ∨ l = c :: body ++ [Re.newline])
              ∧ Re.in_class lower c = true
              ∧ Forall (λ c, Re.in_class word c = true) body
              ∧ (length body <= 62)%nat).
  { rewrite matches_spec. fold l. unfold corpus_label_re.
    cbn [Re.run]. split.
    - intros (t & Ht).
      apply list_elem_of_bind in Ht as (s1 & Ht & Hs1).
      apply (run_class lower) in Hs1 as (c & Hl & Hc).
      apply list_elem_of_bind in Ht as (s2 & Ht & Hs2).
      apply (repeat_class word) in Hs2 as (body & -> & Hall & Hlen).
      destruct (Re.at_end s2) eqn:Hend;
        [| by apply elem_of_nil in Ht].
      exists c, body. split; [| done].
      unfold Re.at_end in Hend. apply orb_true_iff in Hend as [Hend|Hend];
        apply bool_decide_eq_true in Hend; subst s2.
      + left. by rewrite app_nil_r in Hl.
      + by right.
    - intros (c & body & Hl & Hc & Hall & Hlen).
      set (t := if decide (l = c :: body) then [] else [Re.newline]).
      assert (Hlt : l = c :: body ++ t).
      { unfold t. destruct (decide (l = c :: body)) as [->|Hne].
        - by rewrite app_nil_r.
        - by destruct Hl. }
      assert (Hend : Re.at_end t = true).
      { unfold t. by destruct (decide (l = c :: body)). }
      exists t. apply list_elem_of_bind. exists (body ++ t). split.
      + apply list_elem_of_bind. exists t. split.
        * cbn [Re.run]. rewrite Hend. left.
        * apply (repeat_class word). by exists body.
      + apply (run_class lower). by exists c. }
  split; [exact Hiff |].
  intros Hm. apply Hiff in Hm as (c & body & [->| ->] & _ & _ & Hlen);
    simpl; rewrite ?length_app; simpl; lia.
Qed.

(** ** Test batches whose metadata cannot be read *)

Section Unreadable.

Variable env : Env.

#[local] Arguments set_n_topics /.
#[local] Arguments set_alpha_value /.
#[local] Arguments set_beta_value /.
#[local] Arguments logging /.

(** A test batch is dropped, with the exception and a context record
    logged and nothing submitted, when its [result()] raises or lacks
    one of the three keys.  The context record carries the value of
    [n_topics] at that moment: the one left by the statements before
    when the failure comes before [n_topics] is read, the batch's own
    afterwards. *)
Theorem test_batch_unreadable (h : DataHandle) (s : state) :
  let dropped e n s' :=
    test_submit_one env h s = Done tt s'
    ∧ submitted s' = submitted s
    ∧ test_futures s' = test_futures s
    ∧ log s' = log s ++ [(ERROR, TestSubmitError e);
                         (ERROR, TestContext n alpha_values beta_values)] in
  (∀ e, test_result env h = inl e → ∃ s', dropped e (n_topics s) s')
  ∧ (∀ tb, test_result env h = inr tb →
       (tb_n_topics tb = None →
        ∃ s', dropped (KeyError "n_topics") (n_topics s) s')
       ∧ (∀ n, tb_n_topics tb = Some n → tb_alpha_value tb = None →
               ∃ s', dropped (KeyError "alpha_value") n s')
       ∧ (∀ n a, tb_n_topics tb = Some n → tb_alpha_value tb = Some a →
                 tb_beta_value tb = None →
                 ∃ s', dropped (KeyError "beta_value") n s')).
Proof.
  intros dropped. subst dropped. cbv beta. split.
  - intros e He. eexists.
    split; [by apply test_submit_one_unreadable |].
    simpl. by rewrite <- app_assoc.
  - intros [on oa ob] Htb.
    unfold test_submit_one, try_except, bind, modify, get, lift, getitem,
      raise, ret.
    rewrite Htb. simpl. split; [| split].
    + intros ->. eexists. split; [reflexivity |]. simpl.
      by rewrite <- app_assoc.
    + intros n -> ->. eexists. split; [reflexivity |]. simpl.
      by rewrite <- app_assoc.
    + intros n a -> -> ->. eexists. split; [reflexivity |]. simpl.
      by rewrite <- app_assoc.
Qed.

End Unreadable.

(** * The further theorems at concrete inputs *)



(** Two futures for the same key: the index ends with an entry for
    it. *)
Lemma train_wait_last_writer_wins_witness :
  let t := mkTask 5 Example.sym Example.sym 0%nat train 1%nat None in
  let s := set_train_futures [t; t] initial_state in
  ∃ s' completed,
    train_wait (Example.env 0 false) s = Done tt s'
    ∧ completed_train_futures s' = completed
    ∧ length completed = 2%nat.
Proof.
  intros t s.
  destruct (train_wait_last_writer_wins (Example.env 0 false) s)
    as (s' & completed & Hrun & Hall & Hc & _).
  { intros t' _. eexists. split; [reflexivity |]. simpl. eauto. }
  exists s', completed. split; [exact Hrun |]. split; [exact Hc |].
  by apply Forall2_length in Hall.
Defined.

(** A test batch whose metadata names [c0], with an artifact for [c0]
    in the index. *)
Lemma test_submissions_use_batch_metadata_witness :
  ∃ s' new,
    test_submit (Example.env 0 false) [3%nat]
      (Example.trained_c0 initial_state) = Done tt s'
    ∧ submitted s' = new
    ∧ ∀ t, t ∈ new → t_data t = 3%nat ∧ t_phase t = test.
Proof.
  destruct (test_submissions_use_batch_metadata (Example.env 0 false)
              [3%nat] (Example.trained_c0 initial_state))
    as (s' & new & Hrun & Hsub & Hnew).
  exists s', new. split; [exact Hrun |]. split; [exact Hsub |].
  intros t Ht.
  destruct (Hnew t Ht) as (h & tb & m & Hh & _ & _ & _ & _ & _ & Hd & Hp & _).
  apply list_elem_of_singleton in Hh. subst h. by split.
Defined.



(** The grid of the topic range {5, 10}: 180 distinct combinations. *)
Lemma sample_is_without_replacement_witness :
  ∃ g,
    make_grid Example.cfg (λ _ _, 0%nat) = inr g
    ∧ NoDup (random_combinations g)
    ∧ length (undrawn_combinations g)
      = (length (combinations g) - length (random_combinations g))%nat.
Proof.
  destruct (make_grid_defined Example.cfg (λ _ _, 0%nat) [5; 10])
    as [g Hg]; [by vm_compute | done |].
  exists g. split; [exact Hg |].
  destruct (sample_is_without_replacement Example.cfg (λ _ _, 0%nat) g Hg)
    as (_ & _ & Hnd & _ & _ & Hlen).
  split; [exact Hnd | exact Hlen].
Defined.

(** Every option given and the label [abc]: the checks pass. *)
Lemma argument_checks_pass_witness :
  argument_checks (λ _, Some "abc") = None.
Proof.
  destruct (argument_checks_pass (λ _, Some "abc")) as (Hpass & _).
  apply Hpass. split; [by eauto |].
  exists "abc". split; [reflexivity |]. right. by vm_compute.
Defined.

(** The label [abc] is accepted, and is three characters long. *)
Lemma corpus_label_accepted_witness :
  Re.matches corpus_label_re "abc" = true
  ∧ (1 <= length (String.list_ascii_of_string "abc") <= 64)%nat.
Proof.
  destruct (corpus_label_accepted "abc") as [Hiff Hlen].
  assert (Hm : Re.matches corpus_label_re "abc" = true).
  { apply Hiff. exists "a"%char, ["b"; "c"]%char.
    split; [by left |]. split; [by vm_compute |].
    split; [| simpl; lia]. by repeat constructor. }
  split; [exact Hm | exact (Hlen Hm)].
Defined.

(** A scattered batch of documents read as a dictionary raises
    [TypeError]: the batch is dropped. *)
Lemma test_batch_unreadable_witness :
  let env := mkEnv (λ _, Example.idle) (λ _, None) Example.echo (λ l, l)
               (λ _, inl TypeError) (λ _, None) in
  ∃ s',
    test_submit_one env 3%nat initial_state = Done tt s'
    ∧ submitted s' = []
    ∧ log s' = [(ERROR, TestSubmitError TypeError);
                (ERROR, TestContext 0 alpha_values beta_values)].
Proof.
  intros env.
  destruct (test_batch_unreadable env 3%nat initial_state) as [Hraise _].
  destruct (Hraise TypeError) as (s' & Hrun & Hsub & _ & Hlog);
    [reflexivity |].
  exists s'. split; [exact Hrun |]. split; [exact Hsub | exact Hlog].
Defined.
